(** * dinatra: the request-dispatch pipeline of [mod.ts]

    A shallow embedding of [App] (route table, [respond], [respondStatic],
    [handle], [serve]) together with the properties of the dispatch
    pipeline.  JavaScript strings are modelled as sequences of 8-bit code
    units ([String.string]); a thrown value is either a number or some other
    value; effects (file-system calls, reading the body, invoking a handler,
    logging, sending the response) are recorded in a trace. *)

From Stdlib Require Import ZArith NArith String Ascii List Lia.
From Stdlib.Strings Require Import Byte.
From stdpp Require Import base tactics option list strings gmap pretty.

Local Open Scope string_scope.
Local Open Scope Z_scope.
Set Warnings "-register-all".

(** ** JavaScript string primitives used by [mod.ts] *)

(** Line terminators: the characters that [.] of a regular expression does
    not match.  U+2028 and U+2029 lie outside the 8-bit alphabet. *)
Definition is_line_terminator (c : ascii) : bool :=
  bool_decide (c = "010"%char) || bool_decide (c = "013"%char).

(** The text matched by [.+] when the match starts at the head of [s]: the
    longest prefix free of line terminators (the quantifier is greedy). *)
Fixpoint dot_plus (s : string) : string :=
  match s with
  | EmptyString => EmptyString
  | String c rest =>
      if is_line_terminator c then EmptyString else String c (dot_plus rest)
  end.

(** A match of [/\?(.+)/] anchored at the head of [s]; the result is the
    text of the capture group. *)
Definition match_query (s : string) : option string :=
  match s with
  | String "?"%char rest =>
      match dot_plus rest with
      | EmptyString => None
      | cap => Some cap
      end
  | _ => None
  end.

(** [const [path, search] = req.url.split(/\?(.+)/)].  [split] scans for the
    leftmost match; the array starts with the text before it, followed by
    the capture group.  Without a match the array is [[url]], and [search]
    is [undefined] ([None]). *)
Fixpoint split_url (url : string) : string * option string :=
  match url with
  | EmptyString => (EmptyString, None)
  | String c rest =>
      match match_query url with
      | Some cap => (EmptyString, Some cap)
      | None => let '(p, q) := split_url rest in (String c p, q)
      end
  end.

(** [s.split(sep)] for a one-character separator: never the empty array. *)
Fixpoint split_on (sep : ascii) (s : string) : list string :=
  match s with
  | EmptyString => [EmptyString]
  | String c rest =>
      if bool_decide (c = sep) then EmptyString :: split_on sep rest
      else match split_on sep rest with
           | [] => [String c EmptyString]
           | p :: ps => String c p :: ps
           end
  end.

(** White space stripped by [String.prototype.trim], within 8 bits: TAB, LF,
    VT, FF, CR, SP and NBSP. *)
Definition is_white_space (c : ascii) : bool :=
  let n := nat_of_ascii c in
  ((9 <=? n)%nat && (n <=? 13)%nat) || (n =? 32)%nat || (n =? 160)%nat.

Fixpoint trim_start (s : string) : string :=
  match s with
  | EmptyString => EmptyString
  | String c rest => if is_white_space c then trim_start rest else s
  end.

Fixpoint trim_end (s : string) : string :=
  match s with
  | EmptyString => EmptyString
  | String c rest =>
      match trim_end rest with
      | EmptyString => if is_white_space c then EmptyString else String c EmptyString
      | r => String c r
      end
  end.

Definition trim (s : string) : string := trim_end (trim_start s).

(** ** Data model *)

(** Values produced by [JSON.parse]. *)
Inductive json : Type :=
| JNull
| JBool (b : bool)
| JNumber (n : Z)
| JString (s : string)
| JArray (elems : list json)
| JObject (members : list (string * json)).

(** [Params]: a plain object, as a finite map of its own properties. *)
Abbreviation Params := (gmap string json).

(** Own enumerable properties of a value once converted to an object, as
    [Object.assign] enumerates them: the members of an object, the indices
    of an array, the characters of a string, nothing for the rest. *)
Definition own_properties (v : json) : Params :=
  match v with
  | JObject members => foldl (fun m kv => <[kv.1 := kv.2]> m) ∅ members
  | JArray elems => list_to_map (imap (fun i x => (pretty i, x)) elems)
  | JString s =>
      list_to_map
        (imap (fun i c => (pretty i, JString (String c EmptyString)))
              (list_ascii_of_string s))
  | _ => ∅
  end.

(** [Object.assign(target, source)] on plain objects: every own property of
    the source is stored with [target[key] = value].  Storing under
    ["__proto__"] runs the inherited setter and creates no own property.
    The map holds own properties only: the prototype the setter installs
    when the value stored is an object is not represented, so the map
    describes the object in full for sources without a ["__proto__"] key. *)
Definition Object_assign (target source : Params) : Params :=
  delete "__proto__" source ∪ target.

(** Modelled from the spec: handler.ts is not among the sources; section 3
    enumerates the methods GET, POST, PUT, PATCH, DELETE, OPTIONS, LINK and
    UNLINK, each member standing for the method name itself. *)
Inductive Method : Type :=
  GET | POST | PUT | PATCH | DELETE | OPTIONS | LINK | UNLINK.

Definition Method_value (m : Method) : string :=
  match m with
  | GET => "GET" | POST => "POST" | PUT => "PUT" | PATCH => "PATCH"
  | DELETE => "DELETE" | OPTIONS => "OPTIONS" | LINK => "LINK"
  | UNLINK => "UNLINK"
  end.

(** The keys enumerated by [for (const method in Method)]. *)
Definition Method_keys : list string :=
  map Method_value [GET; POST; PUT; PATCH; DELETE; OPTIONS; LINK; UNLINK].

(** Modelled from the spec: errors.ts is not among the sources; section 6
    names the status integers 400 Bad Request, 404 Not Found and 500
    Internal Server Error. *)
Module ErrorCode.
Definition BadRequest : Z := 400.
Definition NotFound : Z := 404.
Definition InternalServerError : Z := 500.
End ErrorCode.

(** The handle returned by [Deno.open]. *)
Record File : Type := { rid : N }.

(** [Deno.FileInfo], reduced to what [respondStatic] reads. *)
Record FileInfo : Type := {
  isFile : bool;
  isDirectory : bool;
  len : N;
}.

(** Modelled from the spec: response.ts is not among the sources; section 3
    gives the two shapes of a [Response], the pair [[status, body]] and the
    triple [[status, headers, body]]. *)
Inductive Body : Type :=
| BodyAbsent
| BodyText (s : string)
| BodyReader (f : File).

Inductive Response : Type :=
| Pair (status : Z) (body : string)
| Triple (status : Z) (headers : gmap string string) (body : Body).

Definition status_of (r : Response) : Z :=
  match r with Pair s _ => s | Triple s _ _ => s end.

(** The argument of a handler: [{ path, method, params }]. *)
Record Context : Type := {
  ctx_path : string;
  ctx_method : string;
  ctx_params : Params;
}.

(** A value given to [throw]: [typeof err === 'number'] or anything else
    (an [Error] object, a string, ...), described by a text. *)
Inductive Thrown : Type :=
| ThrowNumber (n : Z)
| ThrowOther (description : string).

(** How a call ends: with a value, or by throwing (a rejected promise
    counts as a throw at the [await]). *)
Inductive Completion (A : Type) : Type :=
| Normal (a : A)
| Abrupt (e : Thrown).
Arguments Normal {A} a.
Arguments Abrupt {A} e.

(** A handler returns a [Response], possibly deferred; [None] stands for a
    falsy result such as [null]. *)
Definition Handler : Type := Context -> Completion (option Response).

Record HandlerConfig : Type := {
  cfg_path : string;
  cfg_method : Method;
  cfg_handler : Handler;
}.

(** [ServerRequest], reduced to what the pipeline reads.  [req_headers] is
    keyed by lower-case header names, as [Headers.get] looks them up. *)
Record ServerRequest : Type := {
  req_method : string;
  req_url : string;
  req_headers : gmap string string;
  req_body : list Byte.byte;
}.

Record App : Type := {
  port : N;
  staticEnabled : bool;
  publicDir : string;
  handlerMap : gmap string (gmap string Handler);
}.

(** ** Effects *)

Inductive event : Type :=
| EvListen (addr : string)
| EvConsoleLog (msg : string)
| EvConsoleError (err : Thrown)
| EvStat (path : string)
| EvOpen (path : string)
| EvReadAll (f : File)
| EvBody
| EvInvoke (h : Handler) (ctx : Context)
| EvRespond (r : Response).

(** A computation: the trace of its effects and how it completed. *)
Definition M (A : Type) : Type := (list event * Completion A)%type.

Definition ret {A} (a : A) : M A := ([], Normal a).
Definition throw {A} (e : Thrown) : M A := ([], Abrupt e).
Definition emit (ev : event) : M unit := ([ev], Normal tt).
Definition lift {A} (c : Completion A) : M A := ([], c).

Definition bind {A B} (m : M A) (k : A -> M B) : M B :=
  match m with
  | (t, Normal a) => let '(t', r) := k a in ((t ++ t')%list, r)
  | (t, Abrupt e) => (t, Abrupt e)
  end.

(** [try { m } catch (err) { h err }] *)
Definition try_catch {A} (m : M A) (h : Thrown -> M A) : M A :=
  match m with
  | (t, Abrupt e) => let '(t', r) := h e in ((t ++ t')%list, r)
  | (t, Normal a) => (t, Normal a)
  end.

Notation "x <- m ;; k" := (bind m (fun x => k))
  (at level 100, m at next level, right associativity).
Notation "m ;;; k" := (bind m (fun _ => k))
  (at level 100, right associativity).

Definition trace {A} (m : M A) : list event := fst m.
Definition outcome {A} (m : M A) : Completion A := snd m.

(** ** Collaborators

    What [mod.ts] imports from the platform and from the modules that
    surround it.  [TextDecoder label] is [new TextDecoder(label)]: it throws
    on a label it does not know, and the decoder it returns never throws.
    [stat] and [open] are the calls on the file system as it stands while
    one request is served; a failed [stat] is [None] since its error is
    always discarded. *)
Class Collaborators : Type := {
  parseURLSearchParams : string -> Params;
  JSON_parse : string -> option json;
  TextDecoder : string -> Completion (list Byte.byte -> string);
  getErrorMessage : Z -> string;
  detectedContentType : string -> gmap string string;
  defaultPort : N;
  stat : string -> option FileInfo;
  open : string -> Completion File;
}.

Section Pipeline.
Context {C : Collaborators}.

(** *** Construction and registration *)

(** [new App(port, staticEnabled, publicDir)]: one empty map per method. *)
Definition new_App (port : N) (staticEnabled : bool) (publicDir : string) : App :=
  {| port := port;
     staticEnabled := staticEnabled;
     publicDir := publicDir;
     handlerMap := foldl (fun hm method => <[method := ∅]> hm) ∅ Method_keys |}.

(** [this.handlerMap.get(method).set(path, handler)]; a missing inner map
    makes [.set] throw a [TypeError]. *)
Definition register (a : App) (cfg : HandlerConfig) : Completion App :=
  let method := Method_value (cfg_method cfg) in
  match handlerMap a !! method with
  | Some map =>
      Normal {| port := port a;
                staticEnabled := staticEnabled a;
                publicDir := publicDir a;
                handlerMap :=
                  <[method := <[cfg_path cfg := cfg_handler cfg]> map]>
                    (handlerMap a) |}
  | None => Abrupt (ThrowOther "TypeError")
  end.

Fixpoint handle (a : App) (handlerConfigs : list HandlerConfig) : Completion App :=
  match handlerConfigs with
  | [] => Normal a
  | cfg :: rest =>
      match register a cfg with
      | Normal a' => handle a' rest
      | Abrupt e => Abrupt e
      end
  end.

(** [map.get(path)] under [this.handlerMap.get(method)]. *)
Definition lookup_handler (a : App) (method path : string) : option Handler :=
  match handlerMap a !! method with
  | Some map => map !! path
  | None => None
  end.

(** *** Static fallback *)

Definition do_stat (path : string) : M (option FileInfo) :=
  emit (EvStat path) ;;; ret (stat path).

Definition do_open (path : string) : M File :=
  emit (EvOpen path) ;;; lift (open path).

Definition respondStatic (a : App) (path : string) : M (option Response) :=
  let staticFilePath := publicDir a +:+ path in
  fileInfo <- do_stat staticFilePath ;;
  resolved <-
    match fileInfo with
    | Some fi =>
        if isDirectory fi then
          let staticFilePath := staticFilePath +:+ "/index.html" in
          fileInfo <- do_stat staticFilePath ;;
          ret (staticFilePath, fileInfo)
        else ret (staticFilePath, fileInfo)
    | None => ret (staticFilePath, fileInfo)
    end ;;
  let '(staticFilePath, fileInfo) := resolved in
  match fileInfo with
  | Some fi =>
      if isFile fi then
        let headers :=
          detectedContentType staticFilePath
            ∪ {[ "Content-Length" := pretty (len fi) ]} in
        f <- do_open staticFilePath ;;
        ret (Some (Triple 200 headers (BodyReader f)))
      else ret None
  | None => ret None
  end.

(** *** Dispatch *)

(** [req.headers.get('content-type') || 'application/octet-stream'] *)
Definition rawContentType (req : ServerRequest) : string :=
  match req_headers req !! "content-type" with
  | Some v => if bool_decide (v = "") then "application/octet-stream" else v
  | None => "application/octet-stream"
  end.

(** [rawContentType.split(';').map(s => s.trim())] *)
Definition contentTypeParts (req : ServerRequest) : list string :=
  map trim (split_on ";" (rawContentType req)).

Definition contentType (req : ServerRequest) : string :=
  hd "" (contentTypeParts req).

Definition typeParamsArray (req : ServerRequest) : list string :=
  tl (contentTypeParts req).

(** The reducer: [const [key, value] = curr.split('='); params[key] = value].
    A missing second piece stores [undefined] ([None]). *)
Definition typeParams_step (params : gmap string (option string)) (curr : string)
  : gmap string (option string) :=
  let pieces := split_on "=" curr in
  <[hd "" pieces := head (tl pieces)]> params.

Definition typeParams (req : ServerRequest) : gmap string (option string) :=
  foldl typeParams_step ∅ (typeParamsArray req).

(** [typeParams['charset'] || 'utf-8'] *)
Definition charset (req : ServerRequest) : string :=
  match typeParams req !! "charset" with
  | Some (Some v) => if bool_decide (v = "") then "utf-8" else v
  | _ => "utf-8"
  end.

Definition read_body (req : ServerRequest) : M (list Byte.byte) :=
  emit EvBody ;;; ret (req_body req).

(** [handler(ctx)], awaited when it is a promise. *)
Definition invoke (handler : Handler) (ctx : Context) : M (option Response) :=
  emit (EvInvoke handler ctx) ;;; lift (handler ctx).

Definition respond (a : App) (path : string) (search : option string)
    (method : string) (req : ServerRequest) : M (option Response) :=
  match handlerMap a !! method with
  | None => ret None
  | Some map =>
    match map !! path with
    | None => ret None
    | Some handler =>
      params <-
        (if bool_decide (method = Method_value GET) then
           match search with
           | Some s =>
               if bool_decide (s = "") then ret ∅
               else ret (Object_assign ∅ (parseURLSearchParams s))
           | None => ret ∅
           end
         else
           decoder <- lift (TextDecoder (charset req)) ;;
           bytes <- read_body req ;;
           let decodedBody := decoder bytes in
           if bool_decide (contentType req = "application/x-www-form-urlencoded")
           then ret (Object_assign ∅ (parseURLSearchParams decodedBody))
           else if bool_decide (contentType req = "application/json")
           then match JSON_parse decodedBody with
                | Some obj => ret (Object_assign ∅ (own_properties obj))
                | None => throw (ThrowNumber ErrorCode.BadRequest)
                end
           else ret ∅) ;;
      let ctx := {| ctx_path := path; ctx_method := method; ctx_params := params |} in
      invoke handler ctx
    end
  end.

(** *** The serve loop *)

(** The [catch] block of [serve]. *)
Definition on_error (err : Thrown) : M Response :=
  match err with
  | ThrowNumber n => ret (Pair n (getErrorMessage n))
  | ThrowOther _ =>
      emit (EvConsoleError err) ;;;
      ret (Pair ErrorCode.InternalServerError
                (getErrorMessage ErrorCode.InternalServerError))
  end.

(** The [try] block of [serve]:
    [respond(...) || (staticEnabled && respondStatic(path))], then the
    check [if (!r) throw ErrorCode.NotFound]. *)
Definition resolve (a : App) (path : string) (search : option string)
    (method : string) (req : ServerRequest) : M Response :=
  r <- respond a path search method req ;;
  r <- match r with
       | Some _ => ret r
       | None => if staticEnabled a then respondStatic a path else ret None
       end ;;
  match r with
  | Some r => ret r
  | None => throw (ThrowNumber ErrorCode.NotFound)
  end.

(** One turn of the loop, from the split of the target on; [EvRespond r] is
    [req.respond(processResponse(r))], the hand-over of [r] to the
    transport; what the transport does with it, a failure to send
    included, lies outside the trace. *)
Definition serve_request (a : App) (req : ServerRequest) : M unit :=
  let method := req_method req in
  let '(path, search) := split_url (req_url req) in
  r <- try_catch (resolve a path search method req) on_error ;;
  emit (EvRespond r).

(** [for await (const req of this.server)], over the requests the server
    yields. *)
Fixpoint serve_loop (a : App) (reqs : list ServerRequest) : M unit :=
  match reqs with
  | [] => ret tt
  | req :: rest =>
      if bool_decide (req_url req = "") then throw (ThrowNumber ErrorCode.NotFound)
      else serve_request a req ;;; serve_loop a rest
  end.

Definition serve (a : App) (reqs : list ServerRequest) : M unit :=
  let addr := "0.0.0.0:" +:+ pretty (port a) in
  emit (EvListen addr) ;;;
  emit (EvConsoleLog ("listening on http://" +:+ addr +:+ "/")) ;;;
  serve_loop a reqs.

(** [app(...handlerConfigs)] *)
Definition app (handlerConfigs : list HandlerConfig) (reqs : list ServerRequest) : M unit :=
  a <- lift (handle (new_App defaultPort true "public") handlerConfigs) ;;
  serve a reqs.

End Pipeline.

(** ** Observations on traces *)

(** The handler calls of a trace, in order. *)
Definition invocations (t : list event) : list (Handler * Context) :=
  omap (fun ev => match ev with EvInvoke h ctx => Some (h, ctx) | _ => None end) t.

(** The responses sent. *)
Definition responses (t : list event) : list Response :=
  omap (fun ev => match ev with EvRespond r => Some r | _ => None end) t.

(** What was written with [console.error]. *)
Definition logged (t : list event) : list Thrown :=
  omap (fun ev => match ev with EvConsoleError e => Some e | _ => None end) t.

(** The paths handed to [stat] and [open], in order. *)
Definition touched (t : list event) : list string :=
  omap (fun ev => match ev with
                  | EvStat p => Some p
                  | EvOpen p => Some p
                  | _ => None
                  end) t.

(** The body reads a dispatch performs before it calls the handler. *)
Definition body_reads (method : string) : list event :=
  if bool_decide (method = "GET") then [] else [EvBody].

(** Every method of the enumeration has its inner map, as the constructor
    leaves it. *)
Definition methods_present (a : App) : Prop :=
  forall m : Method, is_Some (handlerMap a !! Method_value m).

(** The same request carrying the given [content-type] header. *)
Definition with_content_type (v : string) (req : ServerRequest) : ServerRequest :=
  {| req_method := req_method req;
     req_url := req_url req;
     req_headers := <["content-type" := v]> (req_headers req);
     req_body := req_body req |}.

(** ** The specification's wording, for comparison with the code *)

(** Section 4.2, step 1: the target up to its first ['?'] and what follows
    that character, if there is one. *)
Fixpoint split_at_first_question (target : string) : string * option string :=
  match target with
  | EmptyString => (EmptyString, None)
  | String c rest =>
      if bool_decide (c = "?"%char) then (EmptyString, Some rest)
      else let '(p, q) := split_at_first_question rest in (String c p, q)
  end.

(** Section 3: of several registrations under one (method, path) pair the
    last one stands. *)
Definition overwrite (method path : string) (found : option Handler)
    (cfg : HandlerConfig) : option Handler :=
  if bool_decide (Method_value (cfg_method cfg) = method)
     && bool_decide (cfg_path cfg = path)
  then Some (cfg_handler cfg) else found.

Definition registered (handlerConfigs : list HandlerConfig) (method path : string)
  : option Handler :=
  foldl (overwrite method path) None handlerConfigs.

(** *** A content-type header, written out

    The text of a header: the media type between padding, then the
    parameters, each [;] followed by [key=value] between padding. *)
Record TypeParam : Type := {
  tp_left : string;
  tp_key : string;
  tp_value : string;
  tp_right : string;
}.

Definition param_text (p : TypeParam) : string :=
  tp_left p +:+ tp_key p +:+ "=" +:+ tp_value p +:+ tp_right p.

Fixpoint params_text (params : list TypeParam) : string :=
  match params with
  | [] => ""
  | p :: rest => ";" +:+ param_text p +:+ params_text rest
  end.

Definition header_text (left t right : string) (params : list TypeParam) : string :=
  left +:+ t +:+ right +:+ params_text params.

(** Padding is made of spaces and tabs; media types, keys and values of
    visible ASCII characters other than [;] and [=]. *)
Definition is_blank (c : ascii) : bool :=
  Ascii.eqb c " " || Ascii.eqb c "009".

Definition is_token_char (c : ascii) : bool :=
  let n := nat_of_ascii c in
  (33 <=? n)%nat && (n <=? 126)%nat
  && negb (Ascii.eqb c ";") && negb (Ascii.eqb c "=").

Definition all_chars (f : ascii -> bool) (s : string) : bool :=
  forallb f (list_ascii_of_string s).

Definition well_formed_param (p : TypeParam) : bool :=
  all_chars is_blank (tp_left p) && all_chars is_token_char (tp_key p)
  && all_chars is_token_char (tp_value p) && all_chars is_blank (tp_right p).

Definition well_formed_header (left t right : string) (params : list TypeParam)
  : bool :=
  all_chars is_blank left && all_chars is_token_char t
  && negb (String.eqb t "") && all_chars is_blank right
  && forallb well_formed_param params.

(** Section 4.2, step 4: the charset named in the parameters, that of the
    last parameter called [charset]; [utf-8] when there is none or when it
    names nothing. *)
Fixpoint named_charset (params : list TypeParam) : string :=
  match params with
  | [] => "utf-8"
  | p :: rest =>
      if existsb (fun q => bool_decide (tp_key q = "charset")) rest
      then named_charset rest
      else if bool_decide (tp_key p = "charset")
              && negb (bool_decide (tp_value p = ""))
           then tp_value p
           else "utf-8"
  end.

Section Wording.
Context {C : Collaborators}.

(** The handler [h] is called with [{path, method, params}] after the
    effects [reads]; its completion is that of the dispatch, and no other
    handler is called in the turn. *)
Definition dispatched_to (a : App) (req : ServerRequest) (path : string)
    (search : option string) (reads : list event) (h : Handler) (ps : Params)
  : Prop :=
  let ctx := {| ctx_path := path; ctx_method := req_method req;
                ctx_params := ps |} in
  respond a path search (req_method req) req
    = ((reads ++ [EvInvoke h ctx])%list, h ctx)
  /\ invocations (trace (serve_request a req)) = [(h, ctx)].

(** Section 8 as worded: a request with the method and path of a registered
    handler calls that handler. *)
Definition matched_requests_reach_their_handler : Prop :=
  forall (p : N) (se : bool) (pd : string) (cfgs : list HandlerConfig) (a : App)
         (req : ServerRequest) (path : string) (search : option string)
         (h : Handler),
    handle (new_App p se pd) cfgs = Normal a ->
    registered cfgs (req_method req) path = Some h ->
    split_url (req_url req) = (path, search) ->
    exists ctx, invocations (trace (serve_request a req)) = [(h, ctx)].

(** Section 4.2, step 4 as worded: the body of every request other than
    GET is read. *)
Definition every_non_GET_body_is_read : Prop :=
  forall (a : App) (req : ServerRequest) (path : string)
         (search : option string),
    req_url req <> "" ->
    split_url (req_url req) = (path, search) ->
    req_method req <> "GET" ->
    In EvBody (trace (serve_request a req)).

(** Section 4.2, steps 3 and 4: the params of a request, or the failure that
    aborts dispatch. *)
Definition params_per_spec (method : string) (search : option string)
    (req : ServerRequest) : Completion Params :=
  if bool_decide (method = "GET") then
    match search with
    | Some s => Normal (Object_assign ∅ (parseURLSearchParams s))
    | None => Normal ∅
    end
  else
    match TextDecoder (charset req) with
    | Abrupt e => Abrupt e
    | Normal decoder =>
        let text := decoder (req_body req) in
        if bool_decide (contentType req = "application/x-www-form-urlencoded")
        then Normal (Object_assign ∅ (parseURLSearchParams text))
        else if bool_decide (contentType req = "application/json")
        then match JSON_parse text with
             | Some obj => Normal (Object_assign ∅ (own_properties obj))
             | None => Abrupt (ThrowNumber ErrorCode.BadRequest)
             end
        else Normal ∅
    end.

(** Section 4.3, steps 1 to 4: the path and the file information of the
    regular file the fallback resolves, if any. *)
Definition resolved_static_file (a : App) (requestPath : string)
  : option (string * FileInfo) :=
  let fullPath := publicDir a +:+ requestPath in
  match stat fullPath with
  | None => None
  | Some fi =>
      if isDirectory fi then
        match stat (fullPath +:+ "/index.html") with
        | Some fi' => if isFile fi' then Some (fullPath +:+ "/index.html", fi') else None
        | None => None
        end
      else if isFile fi then Some (fullPath, fi) else None
  end.

(** Section 4.4 as worded: a raised value outside the recognized status
    codes is logged and answered with status 500. *)
Definition unrecognized_failures_become_500 (recognized : Z -> Prop) : Prop :=
  forall (a : App) (req : ServerRequest) (path : string) (search : option string)
         (e : Thrown),
    split_url (req_url req) = (path, search) ->
    outcome (resolve a path search (req_method req) req) = Abrupt e ->
    ~ (exists n, e = ThrowNumber n /\ recognized n) ->
    responses (trace (serve_request a req))
      = [Pair ErrorCode.InternalServerError
              (getErrorMessage ErrorCode.InternalServerError)]
    /\ logged (trace (serve_request a req)) = [e].

(** Section 4.3, step 5 as worded: a regular file that resolves is
    returned with status 200. *)
Definition resolved_files_are_served : Prop :=
  forall (a : App) (path rp : string) (fi : FileInfo),
    resolved_static_file a path = Some (rp, fi) ->
    exists t headers body,
      respondStatic a path = (t, Normal (Some (Triple 200 headers body))).

End Wording.

(** ** A concrete setting for examples *)

Module Demo.

Definition parse_pair (params : Params) (pair : string) : Params :=
  let pieces := split_on "=" pair in
  <[hd "" pieces := JString (hd "" (tl pieces))]> params.

Definition parse (s : string) : Params :=
  foldl parse_pair ∅ (split_on "&" s).

Definition json_parse (s : string) : option json :=
  if bool_decide (s = "{}") then Some (JObject [])
  else if bool_decide (s = "[]") then Some (JArray [])
  else if bool_decide (s = "null") then Some JNull
  else None.

Definition decoder (label : string) : Completion (list Byte.byte -> string) :=
  if bool_decide (label = "utf-8") then Normal string_of_list_byte
  else Abrupt (ThrowOther "RangeError").

Definition message (status : Z) : string :=
  if bool_decide (status = 400) then "Bad Request"
  else if bool_decide (status = 404) then "Not Found"
  else if bool_decide (status = 500) then "Internal Server Error"
  else "".

Definition mime (path : string) : gmap string string :=
  {[ "Content-Type" := "text/html; charset=utf-8" ]}.

Definition files : gmap string FileInfo :=
  {[ "public/hello.html" := {| isFile := true; isDirectory := false; len := 12%N |};
     "public/docs" := {| isFile := false; isDirectory := true; len := 0%N |};
     "public/docs/index.html" := {| isFile := true; isDirectory := false; len := 5%N |};
     "public/empty" := {| isFile := false; isDirectory := true; len := 0%N |} ]}.

Definition fs_open (path : string) : Completion File :=
  match files !! path with
  | Some fi => if isFile fi then Normal {| rid := 3%N |}
               else Abrupt (ThrowOther "IsADirectory")
  | None => Abrupt (ThrowOther "NotFound")
  end.

Definition collaborators : Collaborators :=
  {| parseURLSearchParams := parse;
     JSON_parse := json_parse;
     TextDecoder := decoder;
     getErrorMessage := message;
     detectedContentType := mime;
     defaultPort := 8080%N;
     stat := fun path => files !! path;
     open := fs_open |}.

Definition hello : Handler := fun _ => Normal (Some (Pair 200 "hello")).
Definition echo : Handler :=
  fun ctx => Normal (Some (Pair 200 (pretty (size (ctx_params ctx))))).
Definition teapot : Handler := fun _ => Abrupt (ThrowNumber 7).
Definition broken : Handler := fun _ => Abrupt (ThrowOther "secret").

Definition routes : list HandlerConfig :=
  [ {| cfg_path := "/hi"; cfg_method := GET; cfg_handler := broken |};
    {| cfg_path := "/hi"; cfg_method := GET; cfg_handler := hello |};
    {| cfg_path := "/a"; cfg_method := GET; cfg_handler := hello |};
    {| cfg_path := "/echo"; cfg_method := POST; cfg_handler := echo |};
    {| cfg_path := "/seven"; cfg_method := GET; cfg_handler := teapot |};
    {| cfg_path := "/broken"; cfg_method := GET; cfg_handler := broken |} ].

(** The application [app(...routes)] serves. *)
Definition the_app : App :=
  match handle (new_App 8080%N true "public") routes with
  | Normal a => a
  | Abrupt _ => new_App 8080%N true "public"
  end.

Definition request (method url : string) (headers : gmap string string)
    (body : string) : ServerRequest :=
  {| req_method := method; req_url := url; req_headers := headers;
     req_body := list_byte_of_string body |}.

(** The loop of [the_app] over a stream, and the responses to one
    request. *)
Definition srv_loop (reqs : list ServerRequest) : M unit :=
  serve_loop (C := collaborators) the_app reqs.

Definition answer (req : ServerRequest) : list Response :=
  responses (trace (srv_loop [req])).

(** The text of a JSON object with the member [a] of value 1, and a parser
    that knows it. *)
Definition object_a1 : string :=
  "{" +:+ String "034" "a" +:+ String "034" ":1}".

Definition json_parse_a1 (s : string) : option json :=
  if bool_decide (s = object_a1) then Some (JObject [("a", JNumber 1)])
  else json_parse s.

Definition collaborators_a1 : Collaborators :=
  {| parseURLSearchParams := parse;
     JSON_parse := json_parse_a1;
     TextDecoder := decoder;
     getErrorMessage := message;
     detectedContentType := mime;
     defaultPort := 8080%N;
     stat := fun path => files !! path;
     open := fs_open |}.

(** The same files, none of which can be opened. *)
Definition collaborators_locked : Collaborators :=
  {| parseURLSearchParams := parse;
     JSON_parse := json_parse;
     TextDecoder := decoder;
     getErrorMessage := message;
     detectedContentType := mime;
     defaultPort := 8080%N;
     stat := fun path => files !! path;
     open := fun _ => Abrupt (ThrowOther "PermissionDenied") |}.

(** A handler that returns [null], routed over a file of the public
    directory. *)
Definition silent : Handler := fun _ => Normal None.

Definition app_with_silent : App :=
  match handle (new_App 8080%N true "public")
          (routes ++ [ {| cfg_path := "/hello.html"; cfg_method := GET;
                          cfg_handler := silent |} ]) with
  | Normal a => a
  | Abrupt _ => new_App 8080%N true "public"
  end.

End Demo.

(** * Properties *)

(** ** The computation monad *)

Lemma bind_ret {A B} (a : A) (k : A -> M B) : bind (ret a) k = k a.
Proof. unfold bind, ret. destruct (k a) as [t r]. reflexivity. Qed.

Lemma bind_throw {A B} (e : Thrown) (k : A -> M B) : bind (throw e) k = throw e.
Proof. reflexivity. Qed.

Lemma bind_emit {B} (ev : event) (k : unit -> M B) :
  bind (emit ev) k = (ev :: trace (k tt), outcome (k tt)).
Proof. unfold bind, emit, trace, outcome. destruct (k tt) as [t r]. reflexivity. Qed.

Lemma bind_lift_Normal {A B} (a : A) (k : A -> M B) : bind (lift (Normal a)) k = k a.
Proof. apply bind_ret. Qed.

Lemma bind_lift_Abrupt {A B} (e : Thrown) (k : A -> M B) :
  bind (lift (Abrupt e)) k = throw e.
Proof. reflexivity. Qed.

Lemma trace_bind {A B} (m : M A) (k : A -> M B) :
  trace (bind m k) =
    (trace m ++ match outcome m with
                | Normal a => trace (k a)
                | Abrupt _ => []
                end)%list.
Proof.
  destruct m as [t [a | e]]; unfold bind, trace, outcome; simpl.
  - destruct (k a) as [t' r]. reflexivity.
  - symmetry. apply app_nil_r.
Qed.

Lemma outcome_bind {A B} (m : M A) (k : A -> M B) :
  outcome (bind m k) =
    match outcome m with
    | Normal a => outcome (k a)
    | Abrupt e => Abrupt e
    end.
Proof.
  destruct m as [t [a | e]]; unfold bind, outcome; simpl.
  - destruct (k a) as [t' r]. reflexivity.
  - reflexivity.
Qed.

Lemma trace_try_catch {A} (m : M A) (h : Thrown -> M A) :
  trace (try_catch m h) =
    (trace m ++ match outcome m with
                | Normal _ => []
                | Abrupt e => trace (h e)
                end)%list.
Proof.
  destruct m as [t [a | e]]; unfold try_catch, trace, outcome; simpl.
  - symmetry. apply app_nil_r.
  - destruct (h e) as [t' r]. reflexivity.
Qed.

Lemma outcome_try_catch {A} (m : M A) (h : Thrown -> M A) :
  outcome (try_catch m h) =
    match outcome m with
    | Normal a => Normal a
    | Abrupt e => outcome (h e)
    end.
Proof.
  destruct m as [t [a | e]]; unfold try_catch, outcome; simpl.
  - reflexivity.
  - destruct (h e) as [t' r]. reflexivity.
Qed.

Lemma M_eta {A} (m : M A) : m = (trace m, outcome m).
Proof. destruct m. reflexivity. Qed.

Lemma invocations_app (t1 t2 : list event) :
  invocations (t1 ++ t2) = (invocations t1 ++ invocations t2)%list.
Proof. apply omap_app. Qed.

Lemma responses_app (t1 t2 : list event) :
  responses (t1 ++ t2) = (responses t1 ++ responses t2)%list.
Proof. apply omap_app. Qed.

Lemma logged_app (t1 t2 : list event) :
  logged (t1 ++ t2) = (logged t1 ++ logged t2)%list.
Proof. apply omap_app. Qed.

(** ** Splitting the request target *)

Lemma dot_plus_no_terminator (s : string) :
  (forall c, In c (list_ascii_of_string s) -> is_line_terminator c = false) ->
  dot_plus s = s.
Proof.
  induction s as [| c rest IH]; intros Hs; simpl.
  - reflexivity.
  - rewrite (Hs c) by (simpl; auto).
    rewrite IH; [reflexivity |].
    intros c' Hc'. apply Hs. simpl. auto.
Qed.

Lemma match_query_nonempty (s cap : string) :
  match_query s = Some cap -> cap <> "".
Proof.
  unfold match_query.
  destruct s as [| c rest]; [discriminate |].
  destruct (decide (c = "?"%char)) as [-> | Hne].
  - destruct (dot_plus rest) eqn:E; [discriminate |].
    intros [= <-]. discriminate.
  - destruct c as [[] [] [] [] [] [] [] []]; try discriminate.
    congruence.
Qed.

Lemma split_url_cons (c : ascii) (rest : string) :
  split_url (String c rest) =
    match match_query (String c rest) with
    | Some cap => (EmptyString, Some cap)
    | None => let '(p, q) := split_url rest in (String c p, q)
    end.
Proof. reflexivity. Qed.

(** [search] is never the empty string: the capture group holds at least
    one character. *)
Lemma split_url_search_nonempty (url path s : string) :
  split_url url = (path, Some s) -> s <> "".
Proof.
  revert path. induction url as [| c rest IH]; intros path.
  - discriminate.
  - rewrite split_url_cons.
    destruct (match_query (String c rest)) as [cap |] eqn:E.
    + intros [= <- <-]. eapply match_query_nonempty; eassumption.
    + destruct (split_url rest) as [p q]. intros [= <- ->]. eapply IH; reflexivity.
Qed.

(** Runs the monadic plumbing as far as the data allows. *)
Ltac run :=
  cbv beta iota zeta delta [bind emit ret lift throw try_catch];
  cbn [List.app].

Section PipelineProperties.
Context {C : Collaborators}.

(** ** Static fallback *)

(** [respondStatic] case by case: the calls it makes and what it returns. *)
Lemma respondStatic_cases (a : App) (path : string) :
  respondStatic a path =
    let p := publicDir a +:+ path in
    let p' := p +:+ "/index.html" in
    let found rp fi :=
      match open rp with
      | Normal f =>
          Normal (Some (Triple 200
                          (detectedContentType rp
                             ∪ {[ "Content-Length" := pretty (len fi) ]})
                          (BodyReader f)))
      | Abrupt e => Abrupt e
      end in
    match stat p with
    | None => ([EvStat p], Normal None)
    | Some fi =>
        if isDirectory fi then
          match stat p' with
          | None => ([EvStat p; EvStat p'], Normal None)
          | Some fi' =>
              if isFile fi' then ([EvStat p; EvStat p'; EvOpen p'], found p' fi')
              else ([EvStat p; EvStat p'], Normal None)
          end
        else if isFile fi then ([EvStat p; EvOpen p], found p fi)
        else ([EvStat p], Normal None)
    end.
Proof.
  unfold respondStatic, do_stat, do_open. run.
  destruct (stat (publicDir a +:+ path)) as [fi |]; run.
  - destruct (isDirectory fi); run.
    + destruct (stat ((publicDir a +:+ path) +:+ "/index.html")) as [fi' |]; run.
      * destruct (isFile fi'); run.
        -- destruct (open ((publicDir a +:+ path) +:+ "/index.html")) as [f | e];
             reflexivity.
        -- reflexivity.
      * reflexivity.
    + destruct (isFile fi); run.
      * destruct (open (publicDir a +:+ path)) as [f | e]; reflexivity.
      * reflexivity.
  - reflexivity.
Qed.

Lemma respondStatic_invokes_nothing (a : App) (path : string) :
  invocations (trace (respondStatic a path)) = [].
Proof.
  rewrite respondStatic_cases. cbv zeta.
  repeat (match goal with |- context [match ?x with _ => _ end] => destruct x end);
    reflexivity.
Qed.

Lemma respondStatic_sends_nothing (a : App) (path : string) :
  responses (trace (respondStatic a path)) = []
  /\ logged (trace (respondStatic a path)) = [].
Proof.
  rewrite respondStatic_cases. cbv zeta.
  repeat (match goal with |- context [match ?x with _ => _ end] => destruct x end);
    split; reflexivity.
Qed.

(** The fallback returns "no match" exactly when no regular file resolves. *)
Lemma respondStatic_unresolved (a : App) (path : string) :
  resolved_static_file a path = None ->
  outcome (respondStatic a path) = Normal None.
Proof.
  rewrite respondStatic_cases. unfold resolved_static_file. cbv zeta.
  repeat (match goal with |- context [match ?x with _ => _ end] => destruct x end);
    try discriminate; reflexivity.
Qed.

(** ** Registration *)

Lemma new_App_methods_present (p : N) (se : bool) (pd : string) :
  methods_present (new_App p se pd).
Proof. intros []; vm_compute; eauto. Qed.

Lemma new_App_lookup (p : N) (se : bool) (pd : string) (method path : string) :
  lookup_handler (new_App p se pd) method path = None.
Proof.
  unfold lookup_handler.
  destruct (handlerMap (new_App p se pd) !! method) as [m |] eqn:E; [| reflexivity].
  unfold new_App, Method_keys in E. cbn [handlerMap map foldl] in E.
  repeat (apply lookup_insert_Some in E as [[_ <-] | [_ E]]; [apply lookup_empty |]).
  rewrite lookup_empty in E. discriminate.
Qed.

Lemma register_lookup (a : App) (cfg : HandlerConfig) :
  methods_present a ->
  exists a', register a cfg = Normal a'
    /\ methods_present a'
    /\ staticEnabled a' = staticEnabled a
    /\ publicDir a' = publicDir a
    /\ forall method path,
         lookup_handler a' method path
           = overwrite method path (lookup_handler a method path) cfg.
Proof.
  intros Hpres. unfold register.
  destruct (Hpres (cfg_method cfg)) as [inner Hinner]. rewrite Hinner.
  eexists. split; [reflexivity |]. cbn [handlerMap staticEnabled publicDir].
  split; [| split; [reflexivity | split; [reflexivity |]]].
  - intros m. cbn [handlerMap]. rewrite lookup_insert. case_decide; eauto.
  - intros method path. unfold lookup_handler, overwrite. cbn [handlerMap].
    rewrite lookup_insert.
    destruct (decide (Method_value (cfg_method cfg) = method)) as [<- | Hm].
    + rewrite bool_decide_eq_true_2 by reflexivity. rewrite Hinner. cbn [andb].
      rewrite lookup_insert. case_decide as Hp.
      * subst. rewrite bool_decide_eq_true_2 by reflexivity. reflexivity.
      * rewrite bool_decide_eq_false_2 by assumption. reflexivity.
    + rewrite (bool_decide_eq_false_2 _ Hm). reflexivity.
Qed.

(** After [handle], the table holds for each pair the handler registered
    last; registration on a constructed [App] never throws. *)
Lemma handle_lookup (cfgs : list HandlerConfig) (a : App) :
  methods_present a ->
  exists a', handle a cfgs = Normal a'
    /\ staticEnabled a' = staticEnabled a
    /\ publicDir a' = publicDir a
    /\ forall method path,
         lookup_handler a' method path
           = foldl (overwrite method path) (lookup_handler a method path) cfgs.
Proof.
  revert a. induction cfgs as [| cfg rest IH]; intros a Hpres.
  - exists a. repeat split; reflexivity.
  - destruct (register_lookup a cfg Hpres) as (a1 & Hreg & Hpres1 & Hse & Hpd & Hlk).
    destruct (IH a1 Hpres1) as (a' & Hh & Hse' & Hpd' & Hlk').
    exists a'. cbn [handle]. rewrite Hreg.
    split; [exact Hh |]. split; [congruence |]. split; [congruence |].
    intros method path. rewrite Hlk', Hlk. reflexivity.
Qed.

Lemma handle_new_App_lookup (p : N) (se : bool) (pd : string)
    (cfgs : list HandlerConfig) (a : App) (method path : string) :
  handle (new_App p se pd) cfgs = Normal a ->
  lookup_handler a method path = registered cfgs method path.
Proof.
  intros Hh.
  destruct (handle_lookup cfgs _ (new_App_methods_present p se pd))
    as (a' & Hh' & _ & _ & Hlk).
  rewrite Hh in Hh'. injection Hh' as <-.
  rewrite Hlk, new_App_lookup. reflexivity.
Qed.

(** ** Dispatch *)

Lemma respond_unmatched (a : App) (path : string) (search : option string)
    (method : string) (req : ServerRequest) :
  lookup_handler a method path = None ->
  respond a path search method req = ([], Normal None).
Proof.
  unfold lookup_handler, respond.
  destruct (handlerMap a !! method) as [inner |]; [| reflexivity].
  intros ->. reflexivity.
Qed.

(** A matched request: the params follow section 4.2, and the handler runs
    unless computing them aborts. *)
Lemma respond_matched (a : App) (path : string) (search : option string)
    (method : string) (req : ServerRequest) (h : Handler) :
  lookup_handler a method path = Some h ->
  (method = "GET" -> search <> Some "") ->
  respond a path search method req =
    match params_per_spec method search req with
    | Normal ps =>
        let ctx := {| ctx_path := path; ctx_method := method; ctx_params := ps |} in
        ((body_reads method ++ [EvInvoke h ctx])%list, h ctx)
    | Abrupt e =>
        (match TextDecoder (charset req) with
         | Normal _ => body_reads method
         | Abrupt _ => []
         end, Abrupt e)
    end.
Proof.
  unfold lookup_handler, respond, params_per_spec, body_reads, invoke, read_body.
  destruct (handlerMap a !! method) as [inner |]; [| discriminate].
  intros -> Hsearch. cbn [Method_value].
  destruct (bool_decide (method = "GET")) eqn:Hget.
  - apply bool_decide_eq_true_1 in Hget. specialize (Hsearch Hget).
    destruct search as [s |].
    + rewrite bool_decide_eq_false_2 by congruence. run.
      destruct (h _); reflexivity.
    + run. destruct (h _); reflexivity.
  - destruct (TextDecoder (charset req)) as [decoder | e]; run; [| reflexivity].
    destruct (bool_decide (contentType req = "application/x-www-form-urlencoded")); run.
    + destruct (h _); reflexivity.
    + destruct (bool_decide (contentType req = "application/json")); run.
      * destruct (JSON_parse (decoder (req_body req))); run; [| reflexivity].
        destruct (h _); reflexivity.
      * destruct (h _); reflexivity.
Qed.

(** [respond] itself neither logs nor sends anything. *)
Lemma respond_quiet (a : App) (path : string) (search : option string)
    (method : string) (req : ServerRequest) :
  responses (trace (respond a path search method req)) = []
  /\ logged (trace (respond a path search method req)) = [].
Proof.
  unfold respond, invoke, read_body.
  destruct (handlerMap a !! method) as [inner |]; [| split; reflexivity].
  destruct (inner !! path) as [h |]; [| split; reflexivity].
  destruct (bool_decide (method = Method_value GET)).
  - destruct search as [s |]; [destruct (bool_decide (s = "")) |]; run;
      destruct (h _); split; reflexivity.
  - destruct (TextDecoder (charset req)) as [decoder | e]; run;
      [| split; reflexivity].
    destruct (bool_decide (contentType req = "application/x-www-form-urlencoded")); run.
    + destruct (h _); split; reflexivity.
    + destruct (bool_decide (contentType req = "application/json")); run.
      * destruct (JSON_parse (decoder (req_body req))); run;
          [destruct (h _) |]; split; reflexivity.
      * destruct (h _); split; reflexivity.
Qed.

(** ** One turn of the serve loop *)

Lemma serve_request_split (a : App) (req : ServerRequest) (path : string)
    (search : option string) :
  split_url (req_url req) = (path, search) ->
  serve_request a req =
    bind (try_catch (resolve a path search (req_method req) req) on_error)
         (fun r => emit (EvRespond r)).
Proof. intros H. unfold serve_request. rewrite H. reflexivity. Qed.

(** [resolve] in terms of what [respond] and [respondStatic] did. *)
Lemma resolve_cases (a : App) (path : string) (search : option string)
    (method : string) (req : ServerRequest) :
  resolve a path search method req =
    match outcome (respond a path search method req) with
    | Normal (Some r) => (trace (respond a path search method req), Normal r)
    | Normal None =>
        if staticEnabled a then
          ((trace (respond a path search method req)
              ++ trace (respondStatic a path))%list,
           match outcome (respondStatic a path) with
           | Normal (Some r) => Normal r
           | Normal None => Abrupt (ThrowNumber ErrorCode.NotFound)
           | Abrupt e => Abrupt e
           end)
        else (trace (respond a path search method req),
              Abrupt (ThrowNumber ErrorCode.NotFound))
    | Abrupt e => (trace (respond a path search method req), Abrupt e)
    end.
Proof.
  unfold resolve.
  destruct (respond a path search method req) as [t [[r |] | e]];
    cbn [trace outcome fst snd]; run.
  - rewrite app_nil_r. reflexivity.
  - destruct (staticEnabled a); run.
    + destruct (respondStatic a path) as [t' [[r' |] | e']];
        cbn [trace outcome fst snd]; run; rewrite ?app_nil_r; reflexivity.
    + rewrite app_nil_r. reflexivity.
  - reflexivity.
Qed.

Lemma resolve_quiet (a : App) (path : string) (search : option string)
    (method : string) (req : ServerRequest) :
  responses (trace (resolve a path search method req)) = []
  /\ logged (trace (resolve a path search method req)) = [].
Proof.
  destruct (respond_quiet a path search method req) as [Hr Hl].
  destruct (respondStatic_sends_nothing a path) as [Hr' Hl'].
  rewrite resolve_cases.
  destruct (outcome (respond a path search method req)) as [[r |] | e];
    cbn [trace fst]; auto.
  destruct (staticEnabled a); cbn [trace fst]; auto.
  rewrite responses_app, logged_app, Hr, Hl, Hr', Hl'. auto.
Qed.

Lemma resolve_invocations (a : App) (path : string) (search : option string)
    (method : string) (req : ServerRequest) :
  invocations (trace (resolve a path search method req))
    = invocations (trace (respond a path search method req)).
Proof.
  rewrite resolve_cases.
  destruct (outcome (respond a path search method req)) as [[r |] | e];
    cbn [trace fst]; auto.
  destruct (staticEnabled a); cbn [trace fst]; auto.
  rewrite invocations_app, respondStatic_invokes_nothing. apply app_nil_r.
Qed.

(** What one turn does with the result of [resolve]: a response goes out
    in every case. *)
Lemma serve_request_cases (a : App) (req : ServerRequest) (path : string)
    (search : option string) :
  split_url (req_url req) = (path, search) ->
  let m := resolve a path search (req_method req) req in
  serve_request a req =
    match outcome m with
    | Normal r => ((trace m ++ [EvRespond r])%list, Normal tt)
    | Abrupt (ThrowNumber n) =>
        ((trace m ++ [EvRespond (Pair n (getErrorMessage n))])%list, Normal tt)
    | Abrupt (ThrowOther d) =>
        ((trace m ++ [EvConsoleError (ThrowOther d);
                      EvRespond (Pair ErrorCode.InternalServerError
                                   (getErrorMessage ErrorCode.InternalServerError))])%list,
         Normal tt)
    end.
Proof.
  intros H m. rewrite (serve_request_split a req path search H). fold m.
  destruct m as [t [r | [n | d]]]; cbn [trace outcome fst snd];
    unfold on_error; run; rewrite ?app_nil_r, <- ?app_assoc; reflexivity.
Qed.

Lemma serve_request_completes (a : App) (req : ServerRequest) :
  outcome (serve_request a req) = Normal tt
  /\ length (responses (trace (serve_request a req))) = 1%nat.
Proof.
  destruct (split_url (req_url req)) as [path search] eqn:H.
  rewrite (serve_request_cases a req path search H). cbv zeta.
  destruct (resolve_quiet a path search (req_method req) req) as [Hr _].
  destruct (outcome (resolve a path search (req_method req) req)) as [r | [n | d]];
    cbn [trace outcome fst snd]; rewrite responses_app, Hr; split; reflexivity.
Qed.

Lemma serve_request_invocations (a : App) (req : ServerRequest) (path : string)
    (search : option string) :
  split_url (req_url req) = (path, search) ->
  invocations (trace (serve_request a req))
    = invocations (trace (respond a path search (req_method req) req)).
Proof.
  intros H. rewrite (serve_request_cases a req path search H). cbv zeta.
  rewrite <- resolve_invocations.
  destruct (outcome (resolve a path search (req_method req) req)) as [r | [n | d]];
    cbn [trace fst]; rewrite invocations_app; apply app_nil_r.
Qed.

(** As long as every target is non-empty the loop answers each request
    once and runs on to the end of the stream. *)
Lemma serve_loop_answers_all (a : App) (reqs : list ServerRequest) :
  Forall (fun req => req_url req <> "") reqs ->
  outcome (serve_loop a reqs) = Normal tt
  /\ length (responses (trace (serve_loop a reqs))) = length reqs.
Proof.
  induction 1 as [| req rest Hreq _ [IHo IHt]]; [split; reflexivity |].
  cbn [serve_loop]. rewrite bool_decide_eq_false_2 by assumption.
  destruct (serve_request_completes a req) as [Ho Ht].
  rewrite outcome_bind, trace_bind, Ho, responses_app, length_app, Ht, IHt.
  split; [assumption | reflexivity].
Qed.

End PipelineProperties.

(** ** The dispatch pipeline, claim by claim *)

Section Claims.
Context {C : Collaborators}.

(** A pair nobody registered reaches no handler at all: the lookup is by
    equality of the whole path, never by prefix. *)
Lemma unregistered_pair_invokes_nothing
    (p : N) (se : bool) (pd : string) (cfgs : list HandlerConfig) (a : App)
    (req : ServerRequest) (path : string) (search : option string) :
  handle (new_App p se pd) cfgs = Normal a ->
  registered cfgs (req_method req) path = None ->
  split_url (req_url req) = (path, search) ->
  respond a path search (req_method req) req = ([], Normal None)
  /\ invocations (trace (serve_request a req)) = [].
Proof.
  intros Hh Hreg Hsplit.
  assert (Hr : respond a path search (req_method req) req = ([], Normal None)).
  { apply respond_unmatched.
    rewrite (handle_new_App_lookup p se pd cfgs a _ _ Hh). exact Hreg. }
  split; [exact Hr |].
  rewrite (serve_request_invocations a req path search Hsplit), Hr. reflexivity.
Qed.

(** C2. A request other than GET that matches a route, whose content type
    is [application/json] and whose decoded body [JSON.parse] rejects, is
    aborted once the body is read: the handler is not called, the dispatch
    throws the number 400, and the response sent is [[400, message of 400]]
    whatever the handler is. *)
Theorem malformed_json_is_bad_request
    (a : App) (req : ServerRequest) (path : string) (search : option string)
    (h : Handler) (decoder : list Byte.byte -> string) :
  req_url req <> "" ->
  split_url (req_url req) = (path, search) ->
  lookup_handler a (req_method req) path = Some h ->
  req_method req <> "GET" ->
  contentType req = "application/json" ->
  TextDecoder (charset req) = Normal decoder ->
  JSON_parse (decoder (req_body req)) = None ->
  respond a path search (req_method req) req
    = ([EvBody], Abrupt (ThrowNumber ErrorCode.BadRequest))
  /\ serve_loop a [req]
     = ([EvBody;
         EvRespond (Pair ErrorCode.BadRequest (getErrorMessage ErrorCode.BadRequest))],
        Normal tt).
Proof.
  intros Hurl Hsplit Hlk Hget Hct Hdec Hjson.
  assert (Hr : respond a path search (req_method req) req
               = ([EvBody], Abrupt (ThrowNumber ErrorCode.BadRequest))).
  { rewrite (respond_matched a path search _ req h Hlk)
      by (intros Hg; contradiction).
    unfold params_per_spec, body_reads.
    rewrite (bool_decide_eq_false_2 _ Hget), Hdec, Hct. cbn [bool_decide].
    rewrite Hjson. reflexivity. }
  split; [exact Hr |].
  cbn [serve_loop]. rewrite (bool_decide_eq_false_2 _ Hurl).
  rewrite (serve_request_cases a req path search Hsplit). cbv zeta.
  rewrite resolve_cases, Hr. reflexivity.
Qed.

(** C3. A request that matches no route and for which the static fallback
    resolves no file (or is switched off) is answered with
    [[404, message of 404]], and with nothing else. *)
Theorem unmatched_request_is_not_found
    (a : App) (req : ServerRequest) (path : string) (search : option string) :
  req_url req <> "" ->
  split_url (req_url req) = (path, search) ->
  lookup_handler a (req_method req) path = None ->
  (staticEnabled a = true -> resolved_static_file a path = None) ->
  outcome (serve_loop a [req]) = Normal tt
  /\ responses (trace (serve_loop a [req]))
     = [Pair ErrorCode.NotFound (getErrorMessage ErrorCode.NotFound)]
  /\ logged (trace (serve_loop a [req])) = [].
Proof.
  intros Hurl Hsplit Hlk Hstatic.
  cbn [serve_loop]. rewrite (bool_decide_eq_false_2 _ Hurl).
  rewrite (serve_request_cases a req path search Hsplit). cbv zeta.
  rewrite resolve_cases, (respond_unmatched a path search _ req Hlk).
  cbn [trace outcome fst snd].
  destruct (respondStatic_sends_nothing a path) as [Hr Hl].
  destruct (staticEnabled a) eqn:Hse.
  - rewrite (respondStatic_unresolved a path (Hstatic eq_refl)).
    cbn [trace outcome fst snd]. run. cbn [trace outcome fst snd].
    rewrite app_nil_r, responses_app, logged_app, Hr, Hl. auto.
  - cbn [trace outcome fst snd]. run. auto.
Qed.

(** C4, as amended. Whatever dispatch or the static fallback throws, a
    response is sent: a thrown number, inside the set of status codes or
    not, becomes the status, with the message [getErrorMessage] gives for
    it, and nothing is logged; any other thrown value is logged and answered
    with [[500, message of 500]], a response in which the value thrown does
    not occur. *)
Theorem failures_are_normalized
    (a : App) (req : ServerRequest) (path : string) (search : option string)
    (e : Thrown) :
  split_url (req_url req) = (path, search) ->
  outcome (resolve a path search (req_method req) req) = Abrupt e ->
  outcome (serve_request a req) = Normal tt
  /\ match e with
     | ThrowNumber n =>
         responses (trace (serve_request a req)) = [Pair n (getErrorMessage n)]
         /\ logged (trace (serve_request a req)) = []
     | ThrowOther _ =>
         responses (trace (serve_request a req))
           = [Pair ErrorCode.InternalServerError
                   (getErrorMessage ErrorCode.InternalServerError)]
         /\ logged (trace (serve_request a req)) = [e]
     end.
Proof.
  intros Hsplit He.
  rewrite (serve_request_cases a req path search Hsplit). cbv zeta. rewrite He.
  destruct (resolve_quiet a path search (req_method req) req) as [Hr Hl].
  destruct e as [n | d]; cbn [trace outcome fst snd];
    rewrite responses_app, logged_app, Hr, Hl; auto.
Qed.

(** C5, as amended. When the fallback resolves a regular file and [open]
    yields its handle, the response is the triple of status 200, the headers
    of the content-type resolver for the resolved path together with
    [Content-Length], the decimal size of the file, and the handle itself as
    body: the calls made are the one or two [stat] and the [open], and the
    content of the file is not part of the response. *)
Theorem static_file_response
    (a : App) (path rp : string) (fi : FileInfo) (f : File) :
  resolved_static_file a path = Some (rp, fi) ->
  open rp = Normal f ->
  detectedContentType rp !! "Content-Length" = None ->
  exists (t : list event) (headers : gmap string string),
    respondStatic a path = (t, Normal (Some (Triple 200 headers (BodyReader f))))
    /\ headers !! "Content-Length" = Some (pretty (len fi))
    /\ (forall k v, detectedContentType rp !! k = Some v -> headers !! k = Some v)
    /\ (forall k, k <> "Content-Length" ->
                  headers !! k = detectedContentType rp !! k)
    /\ (t = [EvStat (publicDir a +:+ path); EvOpen rp]
        \/ t = [EvStat (publicDir a +:+ path); EvStat rp; EvOpen rp]).
Proof.
  intros Hres Hopen Hcl.
  exists (trace (respondStatic a path)),
         (detectedContentType rp ∪ {[ "Content-Length" := pretty (len fi) ]}).
  assert (Hhdr :
    (detectedContentType rp ∪ {[ "Content-Length" := pretty (len fi) ]})
      !! "Content-Length" = Some (pretty (len fi))
    /\ (forall k v, detectedContentType rp !! k = Some v ->
          (detectedContentType rp ∪ {[ "Content-Length" := pretty (len fi) ]}) !! k
            = Some v)
    /\ (forall k, k <> "Content-Length" ->
          (detectedContentType rp ∪ {[ "Content-Length" := pretty (len fi) ]}) !! k
            = detectedContentType rp !! k)).
  { split; [| split].
    - rewrite lookup_union_r by exact Hcl. apply lookup_singleton_eq.
    - intros k v Hk. apply lookup_union_Some_l. exact Hk.
    - intros k Hk. rewrite lookup_union, lookup_singleton_ne by congruence.
      destruct (detectedContentType rp !! k); reflexivity. }
  destruct Hhdr as (H1 & H2 & H3).
  revert Hres. rewrite respondStatic_cases. unfold resolved_static_file. cbv zeta.
  destruct (stat (publicDir a +:+ path)) as [fi0 |]; [| discriminate].
  destruct (isDirectory fi0).
  - destruct (stat ((publicDir a +:+ path) +:+ "/index.html")) as [fi1 |];
      [| discriminate].
    destruct (isFile fi1); [| discriminate].
    intros [= <- <-]. rewrite Hopen. cbn [trace fst].
    repeat (split; [auto; fail |]). right. reflexivity.
  - destruct (isFile fi0); [| discriminate].
    intros [= <- <-]. rewrite Hopen. cbn [trace fst].
    repeat (split; [auto; fail |]). left. reflexivity.
Qed.

(** C6. A failing [stat] of [publicDir + path] ends the fallback with "no
    match" after that single call; when the first [stat] names a directory,
    [path + "/index.html"] is stat'ed, and a failure there ends the fallback
    with "no match" as well, nothing further being tried.  In neither case
    is anything thrown. *)
Theorem stat_failures_yield_no_match (a : App) (path : string) :
  let p := publicDir a +:+ path in
  (stat p = None -> respondStatic a path = ([EvStat p], Normal None))
  /\ (forall fi, stat p = Some fi -> isDirectory fi = true ->
        stat (p +:+ "/index.html") = None ->
        respondStatic a path
          = ([EvStat p; EvStat (p +:+ "/index.html")], Normal None)).
Proof.
  intros p. subst p. split.
  - intros H. rewrite respondStatic_cases. cbv zeta. rewrite H. reflexivity.
  - intros fi H Hdir H'. rewrite respondStatic_cases. cbv zeta.
    rewrite H, Hdir, H'. reflexivity.
Qed.

End Claims.

Section BodyClaims.
Context {C : Collaborators}.

(** [respond] reads of the request its raw content type and its body. *)
Lemma respond_ext (a : App) (path : string) (search : option string)
    (method : string) (req req' : ServerRequest) :
  rawContentType req = rawContentType req' ->
  req_body req = req_body req' ->
  respond a path search method req = respond a path search method req'.
Proof.
  intros Hct Hbody.
  unfold respond, read_body, charset, typeParams, typeParamsArray, contentType,
    contentTypeParts.
  rewrite Hct, Hbody. reflexivity.
Qed.

Lemma octet_stream_defaults (req : ServerRequest) :
  rawContentType req = "application/octet-stream" ->
  contentType req = "application/octet-stream" /\ charset req = "utf-8".
Proof.
  intros H.
  unfold charset, typeParams, typeParamsArray, contentType, contentTypeParts.
  rewrite H. split; vm_compute; reflexivity.
Qed.

Lemma contentType_is_trimmed_head (req : ServerRequest) :
  contentType req = trim (hd "" (split_on ";" (rawContentType req))).
Proof.
  unfold contentType, contentTypeParts.
  destruct (split_on ";" (rawContentType req)); reflexivity.
Qed.

(** C7, the failing case. A request whose target is empty makes the loop
    throw before its [try]: no response is sent for it, and the requests
    that follow are never taken from the stream. *)
Theorem empty_target_stops_the_loop
    (a : App) (method : string) (headers : gmap string string)
    (body : list Byte.byte) (rest : list ServerRequest) :
  let req := {| req_method := method; req_url := ""; req_headers := headers;
                req_body := body |} in
  serve_loop a (req :: rest) = ([], Abrupt (ThrowNumber ErrorCode.NotFound))
  /\ outcome (serve a (req :: rest)) = Abrupt (ThrowNumber ErrorCode.NotFound)
  /\ responses (trace (serve a (req :: rest))) = [].
Proof.
  intros req. unfold serve. cbn [serve_loop req_url req]. run.
  repeat split; reflexivity.
Qed.

(** C10. A matched request other than GET without a [content-type] header
    is dispatched exactly as the same request with the header
    [application/octet-stream]: the body is read and decoded as utf-8, the
    params stay empty and the handler is called; its completion is the
    result. *)
Theorem missing_content_type_is_octet_stream
    (a : App) (req : ServerRequest) (path : string) (search : option string)
    (h : Handler) (decoder : list Byte.byte -> string) :
  lookup_handler a (req_method req) path = Some h ->
  req_method req <> "GET" ->
  req_headers req !! "content-type" = None ->
  TextDecoder "utf-8" = Normal decoder ->
  let ctx := {| ctx_path := path; ctx_method := req_method req;
                ctx_params := ∅ |} in
  respond a path search (req_method req) req = ([EvBody; EvInvoke h ctx], h ctx)
  /\ respond a path search (req_method req) req
     = respond a path search (req_method req)
         (with_content_type "application/octet-stream" req)
  /\ charset req = "utf-8".
Proof.
  intros Hlk Hget Hhdr Hdec ctx.
  assert (Hraw : rawContentType req = "application/octet-stream").
  { unfold rawContentType. rewrite Hhdr. reflexivity. }
  destruct (octet_stream_defaults req Hraw) as [Hct Hcs].
  split; [| split; [| exact Hcs]].
  - rewrite (respond_matched a path search _ req h Hlk)
      by (intros Hg; contradiction).
    unfold params_per_spec, body_reads.
    rewrite (bool_decide_eq_false_2 _ Hget), Hcs, Hdec, Hct. reflexivity.
  - apply respond_ext; [| reflexivity].
    rewrite Hraw. unfold rawContentType, with_content_type. cbn [req_headers].
    rewrite lookup_insert_eq. reflexivity.
Qed.

End BodyClaims.

(** ** The content-type header, read as text *)

Lemma split_on_no_sep (sep : ascii) (s : string) :
  (forall c, In c (list_ascii_of_string s) -> c <> sep) ->
  split_on sep s = [s].
Proof.
  induction s as [| c rest IH]; intros Hs; [reflexivity |].
  cbn [split_on].
  rewrite bool_decide_eq_false_2 by (apply Hs; left; reflexivity).
  rewrite IH by (intros c' Hc'; apply Hs; right; exact Hc').
  reflexivity.
Qed.

Lemma split_on_app (sep : ascii) (s1 s2 : string) :
  (forall c, In c (list_ascii_of_string s1) -> c <> sep) ->
  split_on sep (s1 +:+ String sep s2) = s1 :: split_on sep s2.
Proof.
  induction s1 as [| c rest IH]; intros Hs.
  - change ("" +:+ String sep s2) with (String sep s2). cbn [split_on].
    rewrite bool_decide_eq_true_2 by reflexivity. reflexivity.
  - change (String c rest +:+ String sep s2)
      with (String c (rest +:+ String sep s2)).
    cbn [split_on].
    rewrite bool_decide_eq_false_2 by (apply Hs; left; reflexivity).
    rewrite IH by (intros c' Hc'; apply Hs; right; exact Hc').
    reflexivity.
Qed.

Lemma trim_end_cons (c : ascii) (rest : string) :
  trim_end rest <> "" ->
  trim_end (String c rest) = String c (trim_end rest).
Proof.
  intros H. cbn [trim_end]. destruct (trim_end rest); [congruence | reflexivity].
Qed.

Lemma trim_end_prefix (p v : string) :
  trim_end v = v -> v <> "" -> trim_end (p +:+ v) = p +:+ v.
Proof.
  intros Hv Hne. induction p as [| c p' IH]; [exact Hv |].
  change (String c p' +:+ v) with (String c (p' +:+ v)).
  assert (Hne' : p' +:+ v <> "") by (destruct p'; [exact Hne | discriminate]).
  rewrite trim_end_cons by (rewrite IH; exact Hne').
  rewrite IH. reflexivity.
Qed.

(** X20. A header of the shape [type;charset=label]: the base token is the
    trimmed type and the decoder label is the text after [charset=]. *)
Lemma charset_of_header (req : ServerRequest) (t v : string) :
  rawContentType req = t +:+ ";charset=" +:+ v ->
  (forall c, In c (list_ascii_of_string t) -> c <> ";"%char) ->
  (forall c, In c (list_ascii_of_string v) -> c <> ";"%char /\ c <> "="%char) ->
  trim_end v = v ->
  v <> "" ->
  contentType req = trim t /\ charset req = v.
Proof.
  intros Hraw Ht Hv Htrim Hne.
  assert (Hparts : contentTypeParts req = [trim t; "charset=" +:+ v]).
  { unfold contentTypeParts. rewrite Hraw.
    change (t +:+ ";charset=" +:+ v) with (t +:+ String ";" ("charset=" +:+ v)).
    rewrite (split_on_app _ _ _ Ht), split_on_no_sep.
    - cbn [map]. do 2 f_equal. unfold trim.
      change (trim_start ("charset=" +:+ v)) with ("charset=" +:+ v).
      apply trim_end_prefix; assumption.
    - cbv beta iota fix delta [String.append]. cbn [list_ascii_of_string In].
      intros c [<- | [<- | [<- | [<- | [<- | [<- | [<- | [<- | Hc]]]]]]]];
        try discriminate.
      apply (Hv c Hc). }
  unfold contentType, charset, typeParams, typeParamsArray. rewrite Hparts.
  split; [reflexivity |].
  cbn [tl foldl]. unfold typeParams_step.
  change ("charset=" +:+ v) with ("charset" +:+ String "=" v).
  rewrite split_on_app
    by (cbn [list_ascii_of_string In]; intros c H;
        repeat (destruct H as [<- | H]; [discriminate |]); destruct H).
  rewrite split_on_no_sep by (intros c Hc; apply (Hv c Hc)).
  cbn [hd tl head]. rewrite lookup_insert_eq.
  rewrite bool_decide_eq_false_2 by assumption. reflexivity.
Qed.

(** ** Where the split of the target and the specification agree *)

Lemma match_query_cons_other (c : ascii) (rest : string) :
  c <> "?"%char -> match_query (String c rest) = None.
Proof.
  intros Hne. unfold match_query.
  destruct c as [[] [] [] [] [] [] [] []]; try reflexivity. congruence.
Qed.

(** X21. On a target free of line terminators whose first ['?'] is followed
    by at least one character, the path is what precedes that ['?'] and the
    search all that follows it; a target without ['?'] is the path, with no
    search. *)
Lemma split_url_agrees (url : string) :
  (forall c, In c (list_ascii_of_string url) -> is_line_terminator c = false) ->
  match split_at_first_question url with
  | (p, Some s) => s <> "" -> split_url url = (p, Some s)
  | (p, None) => split_url url = (p, None)
  end.
Proof.
  induction url as [| c rest IH]; intros Hlt.
  - reflexivity.
  - rewrite split_url_cons. cbn [split_at_first_question].
    destruct (decide (c = "?"%char)) as [-> | Hne].
    + rewrite bool_decide_eq_true_2 by reflexivity.
      intros Hs. unfold match_query.
      rewrite dot_plus_no_terminator
        by (intros c' Hc'; apply Hlt; cbn [list_ascii_of_string]; right; exact Hc').
      destruct rest; [congruence | reflexivity].
    + rewrite (bool_decide_eq_false_2 _ Hne), (match_query_cons_other _ _ Hne).
      assert (IH' := IH (fun c' Hc' => Hlt c' (or_intror Hc'))).
      destruct (split_at_first_question rest) as [p [s |]].
      * intros Hs. rewrite (IH' Hs). reflexivity.
      * rewrite IH'. reflexivity.
Qed.

(** ** The pipeline at work *)

Section AtWork.
Import Demo.

(** C8, the failing case. The target ["/a?"] is not split at all: the
    question mark stays in the path and no search is set, where the
    specification has path ["/a"].  A route registered under ["/a"] is
    therefore missed, and the request ends as 404 while ["/a"] and
    ["/a?x=1"] reach the handler. *)
Theorem trailing_question_mark_stays_in_path :
  split_url "/a?" = ("/a?", None)
  /\ split_at_first_question "/a?" = ("/a", Some "")
  /\ answer (request "GET" "/a?" ∅ "") = [Pair 404 "Not Found"]
  /\ answer (request "GET" "/a" ∅ "") = [Pair 200 "hello"]
  /\ answer (request "GET" "/a?x=1" ∅ "") = [Pair 200 "hello"].
Proof. repeat split; vm_compute; reflexivity. Qed.

(** A GET request without query string reaches its handler with empty
    params. *)
Example GET_without_query :
  invocations (trace (srv_loop [request "GET" "/hi" ∅ ""]))
    = [(hello, {| ctx_path := "/hi"; ctx_method := "GET"; ctx_params := ∅ |})]
  /\ answer (request "GET" "/hi" ∅ "") = [Pair 200 "hello"].
Proof. split; vm_compute; reflexivity. Qed.

(** The content-type token is compared as written: another capitalisation
    is an unrecognized type. *)
Example content_type_token_is_case_sensitive :
  contentType (request "POST" "/echo"
                 {[ "content-type" := " application/json ;charset=utf-8" ]} "{}")
    = "application/json"
  /\ contentType (request "POST" "/echo"
                    {[ "content-type" := "Application/JSON" ]} "{")
     = "Application/JSON"
  /\ answer (request "POST" "/echo" {[ "content-type" := "Application/JSON" ]} "{")
     = [Pair 200 "0"]
  /\ answer (request "POST" "/echo" {[ "content-type" := "application/json" ]} "{")
     = [Pair 400 "Bad Request"].
Proof. repeat split; vm_compute; reflexivity. Qed.

(** The charset parameter is looked up under the key [charset] as written;
    a label the decoder does not know makes the construction of the decoder
    throw before the body is read. *)
Example charset_parameter :
  charset (request "POST" "/echo"
             {[ "content-type" := "text/plain; charset=latin1" ]} "") = "latin1"
  /\ charset (request "POST" "/echo"
                {[ "content-type" := "text/plain; Charset=latin1" ]} "") = "utf-8"
  /\ trace (srv_loop [request "POST" "/echo"
                        {[ "content-type" := "text/plain; charset=latin1" ]} "x"])
     = [EvConsoleError (ThrowOther "RangeError");
        EvRespond (Pair 500 "Internal Server Error")].
Proof. repeat split; vm_compute; reflexivity. Qed.

(** A directory with an [index.html] is served as that file. *)
Example directory_index :
  respondStatic (C := collaborators) the_app "/docs"
  = ([EvStat "public/docs"; EvStat "public/docs/index.html";
      EvOpen "public/docs/index.html"],
     Normal (Some (Triple 200
                     {[ "Content-Type" := "text/html; charset=utf-8";
                        "Content-Length" := "5" ]}
                     (BodyReader {| rid := 3 |})))).
Proof. vm_compute. reflexivity. Qed.

(** C7 on a stream of two requests: the empty target of the first ends the
    loop, and the second, a registered route, is never answered. *)
Example empty_target_then_route :
  serve (C := collaborators) the_app
    [request "GET" "" ∅ ""; request "GET" "/hi" ∅ ""]
  = ([EvListen "0.0.0.0:8080"; EvConsoleLog "listening on http://0.0.0.0:8080/"],
     Abrupt (ThrowNumber 404)).
Proof. vm_compute. reflexivity. Qed.

(** C4 as worded fails: the handler of ["/seven"] throws the number 7, no
    status code of HTTP; the response carries status 7 instead of 500 and
    nothing is logged. *)
Lemma thrown_number_outside_the_codes :
  ~ unrecognized_failures_become_500 (C := collaborators)
      (fun n => 100 <= n <= 599).
Proof.
  intros H.
  assert (Hsplit : split_url (req_url (request "GET" "/seven" ∅ ""))
                   = ("/seven", None)) by (vm_compute; reflexivity).
  assert (Hout : outcome (resolve (C := collaborators) the_app "/seven" None
                            (req_method (request "GET" "/seven" ∅ ""))
                            (request "GET" "/seven" ∅ ""))
                 = Abrupt (ThrowNumber 7)) by (vm_compute; reflexivity).
  destruct (H the_app (request "GET" "/seven" ∅ "") "/seven" None
              (ThrowNumber 7) Hsplit Hout) as [Hresp _].
  - intros (n & Hn & Hrange). injection Hn as <-. lia.
  - vm_compute in Hresp. discriminate Hresp.
Qed.

End AtWork.

(** ** The theorems on concrete requests *)

Lemma malformed_json_is_bad_request_witness :
  serve_loop (C := Demo.collaborators) Demo.the_app
    [Demo.request "POST" "/echo?q" {[ "content-type" := "application/json" ]} "{"]
  = ([EvBody; EvRespond (Pair 400 "Bad Request")], Normal tt).
Proof.
  refine (proj2 (malformed_json_is_bad_request (C := Demo.collaborators)
                   Demo.the_app
                   (Demo.request "POST" "/echo?q"
                      {[ "content-type" := "application/json" ]} "{")
                   "/echo" (Some "q") Demo.echo string_of_list_byte
                   _ _ _ _ _ _ _));
    try (vm_compute; reflexivity); vm_compute; discriminate.
Defined.

Lemma unmatched_request_is_not_found_witness :
  responses (trace (serve_loop (C := Demo.collaborators) Demo.the_app
                      [Demo.request "GET" "/empty" ∅ ""]))
  = [Pair 404 "Not Found"].
Proof.
  refine (proj1 (proj2 (unmatched_request_is_not_found (C := Demo.collaborators)
                          Demo.the_app (Demo.request "GET" "/empty" ∅ "")
                          "/empty" None _ _ _ _)));
    try (vm_compute; reflexivity); vm_compute; discriminate.
Defined.

Lemma failures_are_normalized_witness :
  responses (trace (serve_request (C := Demo.collaborators) Demo.the_app
                      (Demo.request "GET" "/broken" ∅ "")))
  = [Pair 500 "Internal Server Error"]
  /\ logged (trace (serve_request (C := Demo.collaborators) Demo.the_app
                      (Demo.request "GET" "/broken" ∅ "")))
     = [ThrowOther "secret"].
Proof.
  refine (proj2 (failures_are_normalized (C := Demo.collaborators)
                   Demo.the_app (Demo.request "GET" "/broken" ∅ "")
                   "/broken" None (ThrowOther "secret") _ _));
    vm_compute; reflexivity.
Defined.

Lemma static_file_response_witness :
  exists (t : list event) (headers : gmap string string),
    respondStatic (C := Demo.collaborators) Demo.the_app "/docs"
      = (t, Normal (Some (Triple 200 headers (BodyReader {| rid := 3 |}))))
    /\ headers !! "Content-Length" = Some "5".
Proof.
  destruct (static_file_response (C := Demo.collaborators) Demo.the_app "/docs"
              "public/docs/index.html"
              {| isFile := true; isDirectory := false; len := 5%N |}
              {| rid := 3%N |})
    as (t & headers & Hr & Hcl & _); try (vm_compute; reflexivity).
  exists t, headers. split; [exact Hr | exact Hcl].
Defined.

Lemma stat_failures_yield_no_match_witness :
  respondStatic (C := Demo.collaborators) Demo.the_app "/nope"
    = ([EvStat "public/nope"], Normal None)
  /\ respondStatic (C := Demo.collaborators) Demo.the_app "/empty"
     = ([EvStat "public/empty"; EvStat "public/empty/index.html"], Normal None).
Proof.
  split.
  - refine (proj1 (stat_failures_yield_no_match (C := Demo.collaborators)
                     Demo.the_app "/nope") _).
    vm_compute. reflexivity.
  - refine (proj2 (stat_failures_yield_no_match (C := Demo.collaborators)
                     Demo.the_app "/empty")
              {| isFile := false; isDirectory := true; len := 0%N |} _ _ _);
      vm_compute; reflexivity.
Defined.

Lemma missing_content_type_is_octet_stream_witness :
  respond (C := Demo.collaborators) Demo.the_app "/echo" None "POST"
    (Demo.request "POST" "/echo" ∅ "raw bytes")
  = ([EvBody;
      EvInvoke Demo.echo
        {| ctx_path := "/echo"; ctx_method := "POST"; ctx_params := ∅ |}],
     Normal (Some (Pair 200 "0"))).
Proof.
  refine (eq_trans
            (proj1 (missing_content_type_is_octet_stream (C := Demo.collaborators)
                      Demo.the_app (Demo.request "POST" "/echo" ∅ "raw bytes")
                      "/echo" None Demo.echo string_of_list_byte _ _ _ _)) _);
    try (vm_compute; reflexivity); vm_compute; discriminate.
Defined.

(** * Further properties of the pipeline *)

(** ** Registration *)

Lemma touched_app (t1 t2 : list event) :
  touched (t1 ++ t2) = (touched t1 ++ touched t2)%list.
Proof. apply omap_app. Qed.

Lemma handle_keeps_port (cfgs : list HandlerConfig) (a a' : App) :
  handle a cfgs = Normal a' -> port a' = port a.
Proof.
  revert a. induction cfgs as [| cfg rest IH]; intros a.
  - intros [= <-]. reflexivity.
  - cbn [handle]. unfold register.
    destruct (handlerMap a !! Method_value (cfg_method cfg)); [| discriminate].
    intros H. rewrite (IH _ H). reflexivity.
Qed.

Lemma handle_new_App_total (p : N) (se : bool) (pd : string)
    (cfgs : list HandlerConfig) :
  exists a, handle (new_App p se pd) cfgs = Normal a
    /\ port a = p /\ staticEnabled a = se /\ publicDir a = pd
    /\ forall method path,
         lookup_handler a method path = registered cfgs method path.
Proof.
  destruct (handle_lookup cfgs _ (new_App_methods_present p se pd))
    as (a & Hh & Hse & Hpd & Hlk).
  exists a. split; [exact Hh |].
  split; [exact (handle_keeps_port _ _ _ Hh) |].
  split; [exact Hse |]. split; [exact Hpd |].
  intros method path. rewrite Hlk, new_App_lookup. reflexivity.
Qed.

Lemma registered_snoc (cfgs : list HandlerConfig) (cfg : HandlerConfig)
    (method path : string) :
  registered (cfgs ++ [cfg]) method path
    = overwrite method path (registered cfgs method path) cfg.
Proof. unfold registered. rewrite foldl_app. reflexivity. Qed.

Lemma overwrite_untouched (cfgs : list HandlerConfig) (method path : string)
    (init : option Handler) :
  (forall cfg, In cfg cfgs ->
     ~ (Method_value (cfg_method cfg) = method /\ cfg_path cfg = path)) ->
  foldl (overwrite method path) init cfgs = init.
Proof.
  revert init. induction cfgs as [| cfg rest IH]; intros init Hnone;
    [reflexivity |].
  cbn [foldl]. rewrite IH by (intros c Hc; apply Hnone; right; exact Hc).
  unfold overwrite.
  destruct (bool_decide (Method_value (cfg_method cfg) = method)) eqn:Em;
    [| reflexivity].
  destruct (bool_decide (cfg_path cfg = path)) eqn:Ep; [| reflexivity].
  exfalso. apply (Hnone cfg (or_introl eq_refl)).
  split; [exact (bool_decide_eq_true_1 _ Em) | exact (bool_decide_eq_true_1 _ Ep)].
Qed.

(** X1. Registration on a constructed [App] never throws, leaves port,
    [staticEnabled] and [publicDir] as constructed, and the table then
    holds, for every pair, the handler of the last configuration given for
    that pair and nothing for a pair never given. *)
Theorem registration_builds_the_table (p : N) (se : bool) (pd : string)
    (cfgs : list HandlerConfig) :
  exists a, handle (new_App p se pd) cfgs = Normal a
    /\ port a = p /\ staticEnabled a = se /\ publicDir a = pd
    /\ (forall method path,
          lookup_handler a method path = registered cfgs method path)
    /\ (forall method path,
          (forall cfg, In cfg cfgs ->
             ~ (Method_value (cfg_method cfg) = method /\ cfg_path cfg = path)) ->
          lookup_handler a method path = None).
Proof.
  destruct (handle_new_App_total p se pd cfgs) as (a & Hh & Hp & Hse & Hpd & Hlk).
  exists a. repeat (split; [assumption |]).
  intros method path Hnone. rewrite Hlk.
  apply overwrite_untouched. exact Hnone.
Qed.

(** X2. A configuration given last takes its pair over, whatever was
    registered under it before, and changes no other pair. *)
Theorem last_registration_wins (p : N) (se : bool) (pd : string)
    (cfgs : list HandlerConfig) (cfg : HandlerConfig) :
  exists a, handle (new_App p se pd) (cfgs ++ [cfg]) = Normal a
    /\ lookup_handler a (Method_value (cfg_method cfg)) (cfg_path cfg)
       = Some (cfg_handler cfg)
    /\ (forall method path,
          ~ (Method_value (cfg_method cfg) = method /\ cfg_path cfg = path) ->
          lookup_handler a method path = registered cfgs method path).
Proof.
  destruct (handle_new_App_total p se pd (cfgs ++ [cfg]))
    as (a & Hh & _ & _ & _ & Hlk).
  exists a. split; [exact Hh |]. split.
  - rewrite Hlk, registered_snoc. unfold overwrite.
    rewrite !bool_decide_eq_true_2 by reflexivity. reflexivity.
  - intros method path Hne. rewrite Hlk, registered_snoc. unfold overwrite.
    destruct (bool_decide (Method_value (cfg_method cfg) = method)) eqn:Em;
      [| reflexivity].
    destruct (bool_decide (cfg_path cfg = path)) eqn:Ep; [| reflexivity].
    exfalso. apply Hne.
    split; [exact (bool_decide_eq_true_1 _ Em) | exact (bool_decide_eq_true_1 _ Ep)].
Qed.

(** X3. Registering in two calls is registering the concatenation in one:
    [a.handle(...l1); a.handle(...l2)] and [a.handle(...l1, ...l2)] leave
    the same application, or throw the same value. *)
Theorem handle_in_two_calls (a : App) (l1 l2 : list HandlerConfig) :
  handle a (l1 ++ l2)
    = match handle a l1 with
      | Normal a' => handle a' l2
      | Abrupt e => Abrupt e
      end.
Proof.
  revert a. induction l1 as [| cfg rest IH]; intros a; [reflexivity |].
  cbn [handle List.app].
  destruct (register a cfg) as [a1 | e]; [apply IH | reflexivity].
Qed.

Section MoreDispatch.
Context {C : Collaborators}.

Lemma respond_touches_nothing (a : App) (path : string) (search : option string)
    (method : string) (req : ServerRequest) :
  touched (trace (respond a path search method req)) = [].
Proof.
  unfold respond, invoke, read_body.
  destruct (handlerMap a !! method) as [inner |]; [| reflexivity].
  destruct (inner !! path) as [h |]; [| reflexivity].
  destruct (bool_decide (method = Method_value GET)).
  - destruct search as [s |]; [destruct (bool_decide (s = "")) |]; run;
      destruct (h _); reflexivity.
  - destruct (TextDecoder (charset req)) as [decoder | e]; run; [| reflexivity].
    destruct (bool_decide (contentType req = "application/x-www-form-urlencoded")); run.
    + destruct (h _); reflexivity.
    + destruct (bool_decide (contentType req = "application/json")); run.
      * destruct (JSON_parse (decoder (req_body req))); run;
          [destruct (h _) |]; reflexivity.
      * destruct (h _); reflexivity.
Qed.

(** X4. A method outside the enumeration (HEAD, or [get] in lower case)
    has no table at all: whatever was registered, [respond] returns [null]
    at once, reads no body and calls no handler. *)
Theorem unknown_method_is_unrouted (p : N) (se : bool) (pd : string)
    (cfgs : list HandlerConfig) (a : App) (path : string)
    (search : option string) (method : string) (req : ServerRequest) :
  handle (new_App p se pd) cfgs = Normal a ->
  ~ In method Method_keys ->
  respond a path search method req = ([], Normal None).
Proof.
  intros Hh Hm. apply respond_unmatched.
  rewrite (handle_new_App_lookup p se pd cfgs a _ _ Hh).
  apply overwrite_untouched. intros cfg _ [Hmeth _]. apply Hm.
  rewrite <- Hmeth. unfold Method_keys.
  destruct (cfg_method cfg); cbn [map Method_value In]; auto 10.
Qed.

(** X5. Dispatch of a GET request looks at neither the headers nor the
    body: two requests dispatched under the same path and search behave
    alike, and no body is read. *)
Theorem GET_ignores_headers_and_body (a : App) (path : string)
    (search : option string) (req req' : ServerRequest) :
  respond a path search "GET" req = respond a path search "GET" req'
  /\ ~ In EvBody (trace (respond a path search "GET" req)).
Proof.
  unfold respond, invoke.
  destruct (handlerMap a !! "GET") as [inner |]; [| split; [reflexivity | intros []]].
  destruct (inner !! path) as [h |]; [| split; [reflexivity | intros []]].
  rewrite bool_decide_eq_true_2 by reflexivity.
  split; [reflexivity |].
  destruct search as [s |]; [destruct (bool_decide (s = "")) |]; run;
    destruct (h _); cbn [trace fst In]; intros [H | []]; discriminate H.
Qed.

(** X6. Dispatch of a request other than GET does not look at the query
    string: the search part of the target is dropped. *)
Theorem non_GET_ignores_search (a : App) (path : string)
    (search search' : option string) (method : string) (req : ServerRequest) :
  method <> "GET" ->
  respond a path search method req = respond a path search' method req.
Proof.
  intros Hget. unfold respond.
  destruct (handlerMap a !! method) as [inner |]; [| reflexivity].
  destruct (inner !! path) as [h |]; [| reflexivity].
  cbn [Method_value]. rewrite (bool_decide_eq_false_2 _ Hget). reflexivity.
Qed.

(** X7. A charset label the decoder refuses makes a matched request other
    than GET fail where the decoder is built: the body is not read, the
    handler is not called, and when the value thrown is not a number the
    turn logs it and answers 500. *)
Theorem unknown_charset_aborts_before_the_body
    (a : App) (req : ServerRequest) (path : string) (search : option string)
    (h : Handler) (e : Thrown) :
  split_url (req_url req) = (path, search) ->
  lookup_handler a (req_method req) path = Some h ->
  req_method req <> "GET" ->
  TextDecoder (charset req) = Abrupt e ->
  respond a path search (req_method req) req = ([], Abrupt e)
  /\ (forall d, e = ThrowOther d ->
        serve_request a req
          = ([EvConsoleError e;
              EvRespond (Pair ErrorCode.InternalServerError
                           (getErrorMessage ErrorCode.InternalServerError))],
             Normal tt)).
Proof.
  intros Hsplit Hlk Hget Hdec.
  assert (Hr : respond a path search (req_method req) req = ([], Abrupt e)).
  { rewrite (respond_matched a path search _ req h Hlk)
      by (intros Hg; contradiction).
    unfold params_per_spec.
    rewrite (bool_decide_eq_false_2 _ Hget), Hdec. reflexivity. }
  split; [exact Hr |].
  intros d ->. rewrite (serve_request_cases a req path search Hsplit). cbv zeta.
  rewrite resolve_cases, Hr. reflexivity.
Qed.

End MoreDispatch.

(** ** Bodies and headers *)

Lemma members_untouched (members : list (string * json)) (k : string)
    (init : Params) :
  ~ In k (map fst members) ->
  foldl (fun m kv => <[kv.1 := kv.2]> m) init members !! k = init !! k.
Proof.
  revert init. induction members as [| [k' v'] rest IH]; intros init Hk;
    [reflexivity |].
  cbn [foldl]. rewrite IH by (intros H; apply Hk; right; exact H).
  cbn [fst snd]. apply lookup_insert_ne. intros ->. apply Hk. left. reflexivity.
Qed.

Lemma members_stored (members : list (string * json)) (k : string) (v : json)
    (init : Params) :
  NoDup (map fst members) ->
  In (k, v) members ->
  foldl (fun m kv => <[kv.1 := kv.2]> m) init members !! k = Some v.
Proof.
  revert init. induction members as [| [k' v'] rest IH]; intros init Hnd Hin;
    [destruct Hin |].
  cbn [map fst] in Hnd. apply NoDup_cons in Hnd as [Hfresh Hnd].
  cbn [foldl fst snd]. destruct Hin as [[= -> ->] | Hin].
  - rewrite members_untouched by (rewrite <- list_elem_of_In; exact Hfresh).
    apply lookup_insert_eq.
  - apply IH; assumption.
Qed.

Section MoreBodies.
Context {C : Collaborators}.

(** X8. A JSON body that parses reaches the handler as params.  For a
    parsed object with distinct keys, none of them [__proto__], the own
    properties of the params are the members, each under its key, and no
    others; [null], a boolean or a number gives params without own
    properties. *)
Theorem json_body_reaches_params
    (a : App) (req : ServerRequest) (path : string) (search : option string)
    (h : Handler) (decoder : list Byte.byte -> string) (obj : json) :
  lookup_handler a (req_method req) path = Some h ->
  req_method req <> "GET" ->
  contentType req = "application/json" ->
  TextDecoder (charset req) = Normal decoder ->
  JSON_parse (decoder (req_body req)) = Some obj ->
  exists ps : Params,
    respond a path search (req_method req) req
      = ([EvBody;
          EvInvoke h {| ctx_path := path; ctx_method := req_method req;
                        ctx_params := ps |}],
         h {| ctx_path := path; ctx_method := req_method req; ctx_params := ps |})
    /\ (forall members,
          obj = JObject members -> NoDup (map fst members) ->
          ~ In "__proto__" (map fst members) ->
          (forall k v, In (k, v) members -> ps !! k = Some v)
          /\ (forall k, ~ In k (map fst members) -> ps !! k = None))
    /\ (match obj with
        | JNull | JBool _ | JNumber _ => ps = ∅
        | _ => True
        end).
Proof.
  intros Hlk Hget Hct Hdec Hjson.
  exists (Object_assign ∅ (own_properties obj)).
  split; [| split].
  - rewrite (respond_matched a path search _ req h Hlk)
      by (intros Hg; contradiction).
    unfold params_per_spec, body_reads.
    rewrite (bool_decide_eq_false_2 _ Hget), Hdec, Hct. cbn [bool_decide].
    rewrite Hjson. reflexivity.
  - intros members -> Hnd Hproto. unfold Object_assign.
    assert (Hplain : own_properties (JObject members) !! "__proto__" = None).
    { cbn [own_properties]. rewrite members_untouched by exact Hproto.
      apply lookup_empty. }
    rewrite (delete_id _ _ Hplain), (right_id_L ∅ (∪)). cbn [own_properties].
    split.
    + intros k v Hin. apply members_stored; assumption.
    + intros k Hk. rewrite members_untouched by exact Hk. apply lookup_empty.
  - destruct obj; try exact I; unfold Object_assign; cbn [own_properties];
      rewrite delete_empty; apply (right_id_L ∅ (∪)).
Qed.

(** X9. An empty [content-type] header counts as none: the request is
    dispatched as with [application/octet-stream]. *)
Theorem empty_content_type_is_missing
    (a : App) (path : string) (search : option string) (method : string)
    (req : ServerRequest) :
  req_headers req !! "content-type" = Some "" ->
  respond a path search method req
    = respond a path search method
        (with_content_type "application/octet-stream" req).
Proof.
  intros Hhdr. apply respond_ext; [| reflexivity].
  unfold rawContentType, with_content_type. cbn [req_headers].
  rewrite Hhdr, lookup_insert_eq. reflexivity.
Qed.

End MoreBodies.

(** ** The target, taken apart and put together *)

Lemma dot_plus_rest (s : string) :
  exists rest, s = dot_plus s +:+ rest
    /\ match rest with
       | EmptyString => True
       | String c _ => is_line_terminator c = true
       end.
Proof.
  induction s as [| c s' [rest [Hs Hrest]]].
  - exists "". split; [reflexivity | exact I].
  - cbn [dot_plus]. destruct (is_line_terminator c) eqn:Hc.
    + exists (String c s'). split; [reflexivity | exact Hc].
    + exists rest. split; [| exact Hrest].
      change (String c (dot_plus s') +:+ rest) with (String c (dot_plus s' +:+ rest)).
      rewrite <- Hs. reflexivity.
Qed.

(** X10. The two parts give the target back.  Without a search the path is
    the whole target; with one, the search is not empty and the target is
    path, ['?'], search and a remainder that is empty or starts at a line
    terminator. *)
Theorem split_url_round_trip (url : string) :
  match split_url url with
  | (path, None) => path = url
  | (path, Some search) =>
      search <> ""
      /\ exists rest, url = path +:+ String "?" (search +:+ rest)
           /\ match rest with
              | EmptyString => True
              | String c _ => is_line_terminator c = true
              end
  end.
Proof.
  induction url as [| c rest IH]; [reflexivity |].
  rewrite split_url_cons.
  destruct (match_query (String c rest)) as [cap |] eqn:E.
  - split; [exact (match_query_nonempty _ _ E) |].
    destruct (decide (c = "?"%char)) as [-> | Hne].
    + unfold match_query in E.
      destruct (dot_plus_rest rest) as (tail & Hrest & Htail).
      destruct (dot_plus rest) eqn:Ed; [discriminate |].
      injection E as <-. exists tail. split; [| exact Htail].
      change ("" +:+ String "?" (String a s +:+ tail))
        with (String "?" (String a s +:+ tail)).
      rewrite <- Hrest. reflexivity.
    + rewrite (match_query_cons_other _ _ Hne) in E. discriminate E.
  - destruct (split_url rest) as [p [s |]].
    + destruct IH as (Hs & tail & Hrest & Htail). split; [exact Hs |].
      exists tail. split; [| exact Htail].
      change (String c p +:+ String "?" (s +:+ tail))
        with (String c (p +:+ String "?" (s +:+ tail))).
      rewrite <- Hrest. reflexivity.
    + rewrite IH. reflexivity.
Qed.

(** ** Routes, the static fallback and the loop *)

Lemma append_assoc (s1 s2 s3 : string) :
  (s1 +:+ s2) +:+ s3 = s1 +:+ (s2 +:+ s3).
Proof.
  induction s1 as [| c s1' IH]; [reflexivity |].
  change (String c ((s1' +:+ s2) +:+ s3) = String c (s1' +:+ (s2 +:+ s3))).
  rewrite IH. reflexivity.
Qed.

Section MoreServing.
Context {C : Collaborators}.

Lemma resolve_touched (a : App) (path : string) (search : option string)
    (method : string) (req : ServerRequest) :
  touched (trace (resolve a path search method req))
    = match outcome (respond a path search method req) with
      | Normal None =>
          if staticEnabled a then touched (trace (respondStatic a path)) else []
      | _ => []
      end.
Proof.
  rewrite resolve_cases.
  pose proof (respond_touches_nothing a path search method req) as Ht.
  destruct (outcome (respond a path search method req)) as [[r |] | e];
    cbn [trace fst]; auto.
  destruct (staticEnabled a); cbn [trace fst]; auto.
  rewrite touched_app, Ht. reflexivity.
Qed.

Lemma serve_request_touched (a : App) (req : ServerRequest) (path : string)
    (search : option string) :
  split_url (req_url req) = (path, search) ->
  touched (trace (serve_request a req))
    = touched (trace (resolve a path search (req_method req) req)).
Proof.
  intros H. rewrite (serve_request_cases a req path search H). cbv zeta.
  destruct (outcome (resolve a path search (req_method req) req)) as [r | [n | d]];
    cbn [trace fst]; rewrite touched_app; apply app_nil_r.
Qed.

(** What is sent and logged in a turn follows from how [resolve] ends. *)
Lemma same_outcome_same_answer (a a' : App) (req req' : ServerRequest)
    (path path' : string) (search search' : option string) :
  split_url (req_url req) = (path, search) ->
  split_url (req_url req') = (path', search') ->
  outcome (resolve a path search (req_method req) req)
    = outcome (resolve a' path' search' (req_method req') req') ->
  responses (trace (serve_request a req)) = responses (trace (serve_request a' req'))
  /\ logged (trace (serve_request a req)) = logged (trace (serve_request a' req')).
Proof.
  intros H H' Ho.
  rewrite (serve_request_cases a req path search H),
          (serve_request_cases a' req' path' search' H'). cbv zeta.
  destruct (resolve_quiet a path search (req_method req) req) as [Hr Hl].
  destruct (resolve_quiet a' path' search' (req_method req') req') as [Hr' Hl'].
  rewrite <- Ho.
  destruct (outcome (resolve a path search (req_method req) req)) as [r | [n | d]];
    cbn [trace fst]; rewrite !responses_app, !logged_app, Hr, Hl, Hr', Hl';
    split; reflexivity.
Qed.

(** X11. A route comes before the file system: when the matched handler
    returns a response, that response is sent as it is, and no path is
    stat'ed or opened, whatever lies under the public directory. *)
Theorem route_precedes_static
    (a : App) (req : ServerRequest) (path : string) (search : option string)
    (h : Handler) (ps : Params) (r : Response) :
  split_url (req_url req) = (path, search) ->
  lookup_handler a (req_method req) path = Some h ->
  params_per_spec (req_method req) search req = Normal ps ->
  h {| ctx_path := path; ctx_method := req_method req; ctx_params := ps |}
    = Normal (Some r) ->
  responses (trace (serve_request a req)) = [r]
  /\ logged (trace (serve_request a req)) = []
  /\ touched (trace (serve_request a req)) = [].
Proof.
  intros Hsplit Hlk Hps Hh.
  assert (Hs : search <> Some "").
  { intros ->. exact (split_url_search_nonempty _ _ _ Hsplit eq_refl). }
  pose proof (respond_matched a path search _ req h Hlk (fun _ => Hs)) as Hr.
  rewrite Hps in Hr. cbv zeta in Hr. rewrite Hh in Hr.
  rewrite (serve_request_touched a req path search Hsplit), resolve_touched, Hr.
  cbn [outcome snd].
  rewrite (serve_request_cases a req path search Hsplit). cbv zeta.
  destruct (resolve_quiet a path search (req_method req) req) as [Hq Hl].
  rewrite resolve_cases, Hr in *. cbn [trace outcome fst snd] in *.
  rewrite responses_app, logged_app, Hq, Hl. auto.
Qed.

(** X12. A handler that returns a falsy value leaves the request to the
    static fallback: what is sent, logged and looked up on disk is what the
    same request gets from an application without routes. *)
Theorem falsy_result_falls_back
    (a : App) (req : ServerRequest) (path : string) (search : option string)
    (h : Handler) (ps : Params) :
  split_url (req_url req) = (path, search) ->
  lookup_handler a (req_method req) path = Some h ->
  params_per_spec (req_method req) search req = Normal ps ->
  h {| ctx_path := path; ctx_method := req_method req; ctx_params := ps |}
    = Normal None ->
  let bare := new_App (port a) (staticEnabled a) (publicDir a) in
  responses (trace (serve_request a req)) = responses (trace (serve_request bare req))
  /\ logged (trace (serve_request a req)) = logged (trace (serve_request bare req))
  /\ touched (trace (serve_request a req)) = touched (trace (serve_request bare req)).
Proof.
  intros Hsplit Hlk Hps Hh bare.
  assert (Hs : search <> Some "").
  { intros ->. exact (split_url_search_nonempty _ _ _ Hsplit eq_refl). }
  pose proof (respond_matched a path search _ req h Hlk (fun _ => Hs)) as Hr.
  rewrite Hps in Hr. cbv zeta in Hr. rewrite Hh in Hr.
  pose proof (respond_unmatched bare path search (req_method req) req
                (new_App_lookup _ _ _ _ _)) as Hr'.
  assert (Hstatic : respondStatic bare path = respondStatic a path) by reflexivity.
  assert (Hout : outcome (resolve a path search (req_method req) req)
                 = outcome (resolve bare path search (req_method req) req)).
  { rewrite !resolve_cases, Hr, Hr', Hstatic. cbn [outcome snd staticEnabled bare new_App].
    destruct (staticEnabled a); reflexivity. }
  destruct (same_outcome_same_answer a bare req req path path search search
              Hsplit Hsplit Hout) as [H1 H2].
  split; [exact H1 |]. split; [exact H2 |].
  rewrite !(serve_request_touched _ req path search Hsplit), !resolve_touched.
  rewrite Hr, Hr', Hstatic. reflexivity.
Qed.

(** X13. With [staticEnabled] off no request ever reaches the file system:
    a turn of the loop stats and opens nothing. *)
Theorem static_disabled_touches_nothing (a : App) (req : ServerRequest) :
  staticEnabled a = false ->
  touched (trace (serve_request a req)) = [].
Proof.
  intros Hse. destruct (split_url (req_url req)) as [path search] eqn:Hsplit.
  rewrite (serve_request_touched a req path search Hsplit), resolve_touched, Hse.
  destruct (outcome (respond a path search (req_method req) req)) as [[r |] | e];
    reflexivity.
Qed.

(** X14. A directory is served as its [index.html]: the fallback returns
    for the directory what it returns for [path + "/index.html"] asked for
    directly. *)
Theorem directory_is_served_as_its_index
    (a : App) (path : string) (fi fi' : FileInfo) :
  stat (publicDir a +:+ path) = Some fi ->
  isDirectory fi = true ->
  stat ((publicDir a +:+ path) +:+ "/index.html") = Some fi' ->
  isDirectory fi' = false ->
  outcome (respondStatic a path)
    = outcome (respondStatic a (path +:+ "/index.html")).
Proof.
  intros Hstat Hdir Hstat' Hdir'.
  rewrite !respondStatic_cases. cbv zeta.
  rewrite <- (append_assoc (publicDir a) path "/index.html").
  rewrite Hstat, Hdir, Hstat', Hdir'.
  destruct (isFile fi'); reflexivity.
Qed.

(** X15. A failure of [open] is not swallowed as those of [stat] are: when
    the file that resolved cannot be opened, the fallback throws what
    [open] threw, and an unrouted request is answered from that value, 500
    and a log entry unless it is a number. *)
Theorem open_failure_propagates
    (a : App) (path rp : string) (fi : FileInfo) (e : Thrown) :
  resolved_static_file a path = Some (rp, fi) ->
  open rp = Abrupt e ->
  outcome (respondStatic a path) = Abrupt e
  /\ last (trace (respondStatic a path)) = Some (EvOpen rp)
  /\ (forall req search,
        split_url (req_url req) = (path, search) ->
        lookup_handler a (req_method req) path = None ->
        staticEnabled a = true ->
        responses (trace (serve_request a req))
          = [match e with
             | ThrowNumber n => Pair n (getErrorMessage n)
             | ThrowOther _ =>
                 Pair ErrorCode.InternalServerError
                      (getErrorMessage ErrorCode.InternalServerError)
             end]
        /\ logged (trace (serve_request a req))
           = match e with ThrowNumber _ => [] | ThrowOther _ => [e] end).
Proof.
  intros Hres Hopen.
  assert (Hst : outcome (respondStatic a path) = Abrupt e
                /\ last (trace (respondStatic a path)) = Some (EvOpen rp)).
  { revert Hres. rewrite respondStatic_cases. unfold resolved_static_file. cbv zeta.
    destruct (stat (publicDir a +:+ path)) as [fi0 |]; [| discriminate].
    destruct (isDirectory fi0).
    - destruct (stat ((publicDir a +:+ path) +:+ "/index.html")) as [fi1 |];
        [| discriminate].
      destruct (isFile fi1); [| discriminate].
      intros [= <- <-]. rewrite Hopen. split; reflexivity.
    - destruct (isFile fi0); [| discriminate].
      intros [= <- <-]. rewrite Hopen. split; reflexivity. }
  destruct Hst as [Hout Hlast]. split; [exact Hout |]. split; [exact Hlast |].
  intros req search Hsplit Hlk Hse.
  rewrite (serve_request_cases a req path search Hsplit). cbv zeta.
  destruct (resolve_quiet a path search (req_method req) req) as [Hq Hl].
  rewrite resolve_cases, (respond_unmatched a path search _ req Hlk) in *.
  cbn [trace outcome fst snd] in *. rewrite Hse, Hout in *.
  cbn [trace outcome fst snd] in *.
  destruct e as [n | d]; cbn [trace fst];
    rewrite responses_app, logged_app, Hq, Hl; split; reflexivity.
Qed.

(** X16. The fallback stays with the two paths it builds: it touches
    [publicDir + path] and [publicDir + path + "/index.html"] only, makes
    at most three calls, and opens a path only after a [stat] of that path
    reported a regular file. *)
Theorem respondStatic_stays_with_its_paths (a : App) (path : string) :
  (forall q, In q (touched (trace (respondStatic a path))) ->
     q = publicDir a +:+ path \/ q = (publicDir a +:+ path) +:+ "/index.html")
  /\ (length (trace (respondStatic a path)) <= 3)%nat
  /\ (forall q, In (EvOpen q) (trace (respondStatic a path)) ->
        exists fi, stat q = Some fi /\ isFile fi = true).
Proof.
  rewrite respondStatic_cases. cbv zeta.
  destruct (stat (publicDir a +:+ path)) as [fi |] eqn:Hstat;
    [destruct (isDirectory fi);
     [destruct (stat ((publicDir a +:+ path) +:+ "/index.html")) as [fi' |] eqn:Hstat';
      [destruct (isFile fi') eqn:Hfile |]
     | destruct (isFile fi) eqn:Hfile] |];
    cbn [trace fst]; unfold touched; cbn [omap list_omap length In].
  all: split; [intros q H; intuition (subst; auto) | split; [lia |]].
  all: intros q H; repeat (destruct H as [H | H]);
       first [discriminate H | contradiction | (injection H as <-; eauto)].
Qed.

Lemma serve_loop_prefix (a : App) (l1 l2 : list ServerRequest) :
  Forall (fun req => req_url req <> "") l1 ->
  serve_loop a (l1 ++ l2)
    = ((concat (map (fun req => trace (serve_request a req)) l1)
          ++ trace (serve_loop a l2))%list,
       outcome (serve_loop a l2)).
Proof.
  induction 1 as [| req rest Hreq _ IH].
  - cbn [List.app map concat]. apply M_eta.
  - cbn [List.app serve_loop map concat].
    rewrite bool_decide_eq_false_2 by assumption.
    destruct (serve_request_completes a req) as [Ho _].
    rewrite (M_eta (bind _ _)), trace_bind, outcome_bind, Ho, IH.
    cbn [trace outcome fst snd]. rewrite app_assoc. reflexivity.
Qed.

(** X18. The loop answers the requests that come before the first empty
    target, then throws 404: the request with the empty target and all that
    follow get no turn. *)
Theorem serve_loop_ends_at_empty_target
    (a : App) (l1 l2 : list ServerRequest) (req : ServerRequest) :
  Forall (fun req => req_url req <> "") l1 ->
  req_url req = "" ->
  serve_loop a (l1 ++ req :: l2)
    = (concat (map (fun req => trace (serve_request a req)) l1),
       Abrupt (ThrowNumber ErrorCode.NotFound)).
Proof.
  intros Hall Hreq. rewrite (serve_loop_prefix a l1 (req :: l2) Hall).
  cbn [serve_loop]. rewrite bool_decide_eq_true_2 by exact Hreq.
  cbn [throw trace outcome fst snd]. rewrite app_nil_r. reflexivity.
Qed.

(** X19. [app(...handlerConfigs)] cannot fail before it listens: it serves
    on the default port, with the static fallback on under ["public"], the
    table of the configurations given. *)
Theorem app_serves_with_defaults
    (cfgs : list HandlerConfig) (reqs : list ServerRequest) :
  exists a, app cfgs reqs = serve a reqs
    /\ port a = defaultPort /\ staticEnabled a = true /\ publicDir a = "public"
    /\ (forall method path,
          lookup_handler a method path = registered cfgs method path)
    /\ head (trace (app cfgs reqs))
       = Some (EvListen ("0.0.0.0:" +:+ pretty defaultPort)).
Proof.
  destruct (handle_new_App_total defaultPort true "public" cfgs)
    as (a & Hh & Hp & Hse & Hpd & Hlk).
  assert (Happ : app cfgs reqs = serve a reqs).
  { unfold app. rewrite Hh.
    exact (bind_lift_Normal a (fun a' => serve a' reqs)). }
  exists a. repeat (split; [assumption |]).
  rewrite Happ. unfold serve. cbv zeta. rewrite bind_emit, Hp. reflexivity.
Qed.

End MoreServing.

(** ** The further properties on concrete requests *)

Lemma unknown_method_is_unrouted_witness :
  respond (C := Demo.collaborators) Demo.the_app "/hi" None "HEAD"
    (Demo.request "HEAD" "/hi" ∅ "")
  = ([], Normal None).
Proof.
  refine (unknown_method_is_unrouted (C := Demo.collaborators) 8080%N true
            "public" Demo.routes Demo.the_app "/hi" None "HEAD"
            (Demo.request "HEAD" "/hi" ∅ "") _ _).
  - vm_compute. reflexivity.
  - compute. intros H. repeat (destruct H as [H | H]; [discriminate H |]).
    exact H.
Defined.

Lemma non_GET_ignores_search_witness :
  respond (C := Demo.collaborators) Demo.the_app "/echo" (Some "x=1") "POST"
    (Demo.request "POST" "/echo?x=1" ∅ "")
  = respond (C := Demo.collaborators) Demo.the_app "/echo" None "POST"
      (Demo.request "POST" "/echo?x=1" ∅ "").
Proof.
  refine (non_GET_ignores_search (C := Demo.collaborators) Demo.the_app "/echo"
            (Some "x=1") None "POST" (Demo.request "POST" "/echo?x=1" ∅ "") _).
  discriminate.
Defined.

Lemma unknown_charset_aborts_before_the_body_witness :
  respond (C := Demo.collaborators) Demo.the_app "/echo" None "POST"
    (Demo.request "POST" "/echo"
       {[ "content-type" := "text/plain; charset=latin1" ]} "x")
  = ([], Abrupt (ThrowOther "RangeError")).
Proof.
  refine (proj1 (unknown_charset_aborts_before_the_body (C := Demo.collaborators)
                   Demo.the_app
                   (Demo.request "POST" "/echo"
                      {[ "content-type" := "text/plain; charset=latin1" ]} "x")
                   "/echo" None Demo.echo (ThrowOther "RangeError") _ _ _ _));
    try (vm_compute; reflexivity); vm_compute; discriminate.
Defined.

Lemma json_body_reaches_params_witness :
  exists ps : Params,
    respond (C := Demo.collaborators_a1) Demo.the_app "/echo" None "POST"
      (Demo.request "POST" "/echo" {[ "content-type" := "application/json" ]}
         Demo.object_a1)
    = ([EvBody;
        EvInvoke Demo.echo
          {| ctx_path := "/echo"; ctx_method := "POST"; ctx_params := ps |}],
       Demo.echo {| ctx_path := "/echo"; ctx_method := "POST"; ctx_params := ps |})
    /\ ps !! "a" = Some (JNumber 1).
Proof.
  destruct (json_body_reaches_params (C := Demo.collaborators_a1) Demo.the_app
              (Demo.request "POST" "/echo"
                 {[ "content-type" := "application/json" ]} Demo.object_a1)
              "/echo" None Demo.echo string_of_list_byte
              (JObject [("a", JNumber 1)]))
    as (ps & Hr & Hmem & _);
    try (vm_compute; reflexivity); [vm_compute; discriminate |].
  exists ps. split; [exact Hr |].
  apply (proj1 (Hmem [("a", JNumber 1)] eq_refl
                  (NoDup_singleton "a")
                  (fun H => match H with
                            | or_introl E => ltac:(discriminate E)
                            | or_intror F => F
                            end))).
  left. reflexivity.
Defined.

Lemma empty_content_type_is_missing_witness :
  respond (C := Demo.collaborators) Demo.the_app "/echo" None "POST"
    (Demo.request "POST" "/echo" {[ "content-type" := "" ]} "x")
  = respond (C := Demo.collaborators) Demo.the_app "/echo" None "POST"
      (with_content_type "application/octet-stream"
         (Demo.request "POST" "/echo" {[ "content-type" := "" ]} "x")).
Proof.
  refine (empty_content_type_is_missing (C := Demo.collaborators) Demo.the_app
            "/echo" None "POST"
            (Demo.request "POST" "/echo" {[ "content-type" := "" ]} "x") _).
  vm_compute. reflexivity.
Defined.

Lemma route_precedes_static_witness :
  responses (trace (serve_request (C := Demo.collaborators) Demo.the_app
                      (Demo.request "GET" "/hi" ∅ "")))
  = [Pair 200 "hello"]
  /\ logged (trace (serve_request (C := Demo.collaborators) Demo.the_app
                      (Demo.request "GET" "/hi" ∅ ""))) = []
  /\ touched (trace (serve_request (C := Demo.collaborators) Demo.the_app
                       (Demo.request "GET" "/hi" ∅ ""))) = [].
Proof.
  refine (route_precedes_static (C := Demo.collaborators) Demo.the_app
            (Demo.request "GET" "/hi" ∅ "") "/hi" None Demo.hello ∅
            (Pair 200 "hello") _ _ _ _);
    vm_compute; reflexivity.
Defined.

Lemma falsy_result_falls_back_witness :
  responses (trace (serve_request (C := Demo.collaborators) Demo.app_with_silent
                      (Demo.request "GET" "/hello.html" ∅ "")))
  = responses (trace (serve_request (C := Demo.collaborators)
                        (new_App 8080%N true "public")
                        (Demo.request "GET" "/hello.html" ∅ ""))).
Proof.
  refine (proj1 (falsy_result_falls_back (C := Demo.collaborators)
                   Demo.app_with_silent (Demo.request "GET" "/hello.html" ∅ "")
                   "/hello.html" None Demo.silent ∅ _ _ _ _));
    vm_compute; reflexivity.
Defined.

Lemma static_disabled_touches_nothing_witness :
  touched (trace (serve_request (C := Demo.collaborators)
                    (new_App 8080%N false "public")
                    (Demo.request "GET" "/hello.html" ∅ "")))
  = [].
Proof.
  refine (static_disabled_touches_nothing (C := Demo.collaborators)
            (new_App 8080%N false "public")
            (Demo.request "GET" "/hello.html" ∅ "") _).
  reflexivity.
Defined.

Lemma directory_is_served_as_its_index_witness :
  outcome (respondStatic (C := Demo.collaborators) Demo.the_app "/docs")
  = outcome (respondStatic (C := Demo.collaborators) Demo.the_app
               ("/docs" +:+ "/index.html")).
Proof.
  refine (directory_is_served_as_its_index (C := Demo.collaborators)
            Demo.the_app "/docs"
            {| isFile := false; isDirectory := true; len := 0%N |}
            {| isFile := true; isDirectory := false; len := 5%N |} _ _ _ _);
    vm_compute; reflexivity.
Defined.

Lemma open_failure_propagates_witness :
  outcome (respondStatic (C := Demo.collaborators_locked) Demo.the_app
             "/hello.html")
  = Abrupt (ThrowOther "PermissionDenied").
Proof.
  refine (proj1 (open_failure_propagates (C := Demo.collaborators_locked)
                   Demo.the_app "/hello.html" "public/hello.html"
                   {| isFile := true; isDirectory := false; len := 12%N |}
                   (ThrowOther "PermissionDenied") _ _));
    vm_compute; reflexivity.
Defined.

Lemma serve_loop_ends_at_empty_target_witness :
  serve_loop (C := Demo.collaborators) Demo.the_app
    ([Demo.request "GET" "/hi" ∅ ""]
       ++ Demo.request "GET" "" ∅ "" :: [Demo.request "GET" "/hi" ∅ ""])
  = (concat (map (fun req => trace (serve_request (C := Demo.collaborators)
                                      Demo.the_app req))
               [Demo.request "GET" "/hi" ∅ ""]),
     Abrupt (ThrowNumber ErrorCode.NotFound)).
Proof.
  refine (serve_loop_ends_at_empty_target (C := Demo.collaborators) Demo.the_app
            [Demo.request "GET" "/hi" ∅ ""] [Demo.request "GET" "/hi" ∅ ""]
            (Demo.request "GET" "" ∅ "") _ _).
  - repeat constructor; discriminate.
  - reflexivity.
Defined.

Lemma charset_of_header_witness :
  contentType (Demo.request "POST" "/echo"
                 {[ "content-type" := "text/plain;charset=latin1" ]} "")
  = trim "text/plain"
  /\ charset (Demo.request "POST" "/echo"
                {[ "content-type" := "text/plain;charset=latin1" ]} "")
     = "latin1".
Proof.
  refine (charset_of_header
            (Demo.request "POST" "/echo"
               {[ "content-type" := "text/plain;charset=latin1" ]} "")
            "text/plain" "latin1" _ _ _ _ _).
  - vm_compute. reflexivity.
  - intros c H. cbn [list_ascii_of_string In] in H.
    repeat (destruct H as [<- | H]; [discriminate |]). destruct H.
  - intros c H. cbn [list_ascii_of_string In] in H.
    repeat (destruct H as [<- | H]; [split; discriminate |]). destruct H.
  - reflexivity.
  - discriminate.
Defined.

Lemma split_url_agrees_witness :
  split_url "/a?b=c" = ("/a", Some "b=c").
Proof.
  refine (split_url_agrees "/a?b=c" _ _).
  - intros c H. cbn [list_ascii_of_string In] in H.
    repeat (destruct H as [<- | H]; [reflexivity |]). destruct H.
  - discriminate.
Defined.

(** * The header text and what the dispatch reads in it *)

Lemma chars_of_append (a b : string) :
  list_ascii_of_string (a +:+ b)
    = (list_ascii_of_string a ++ list_ascii_of_string b)%list.
Proof.
  induction a as [| c a' IH]; [reflexivity |].
  change (String c a' +:+ b) with (String c (a' +:+ b)).
  cbn [list_ascii_of_string List.app]. rewrite IH. reflexivity.
Qed.

Lemma append_empty_r (s : string) : s +:+ "" = s.
Proof.
  induction s as [| c s' IH]; [reflexivity |].
  change (String c s' +:+ "") with (String c (s' +:+ "")).
  rewrite IH. reflexivity.
Qed.

Lemma all_chars_In (f : ascii -> bool) (s : string) (c : ascii) :
  all_chars f s = true -> In c (list_ascii_of_string s) -> f c = true.
Proof. unfold all_chars. rewrite forallb_forall. auto. Qed.

Lemma is_blank_spec (c : ascii) :
  is_blank c = true ->
  is_white_space c = true /\ c <> ";"%char /\ c <> "="%char.
Proof.
  unfold is_blank. intros H. apply orb_true_iff in H.
  destruct H as [H | H]; apply Ascii.eqb_eq in H; subst c;
    repeat split; (reflexivity || discriminate).
Qed.

Lemma is_token_char_spec (c : ascii) :
  is_token_char c = true ->
  is_white_space c = false /\ c <> ";"%char /\ c <> "="%char.
Proof.
  unfold is_token_char, is_white_space. cbv zeta. intros H.
  repeat (apply andb_true_iff in H; destruct H as [H ?]).
  repeat match goal with
         | H : negb _ = true |- _ => apply negb_true_iff, Ascii.eqb_neq in H
         | H : (_ <=? _)%nat = true |- _ => apply Nat.leb_le in H
         end.
  repeat split; try assumption.
  destruct (9 <=? nat_of_ascii c)%nat eqn:E1;
    destruct (nat_of_ascii c <=? 13)%nat eqn:E2;
    destruct (nat_of_ascii c =? 32)%nat eqn:E3;
    destruct (nat_of_ascii c =? 160)%nat eqn:E4;
    try reflexivity; exfalso;
    repeat match goal with
           | H : (_ <=? _)%nat = true |- _ => apply Nat.leb_le in H
           | H : (_ =? _)%nat = true |- _ => apply Nat.eqb_eq in H
           end; lia.
Qed.

Lemma trim_start_blank (l x : string) :
  all_chars is_blank l = true -> trim_start (l +:+ x) = trim_start x.
Proof.
  induction l as [| c l' IH]; intros Hl; [reflexivity |].
  change (String c l' +:+ x) with (String c (l' +:+ x)).
  unfold all_chars in Hl. cbn [list_ascii_of_string forallb] in Hl.
  apply andb_true_iff in Hl as [Hc Hl'].
  cbn [trim_start]. rewrite (proj1 (is_blank_spec c Hc)). apply IH. exact Hl'.
Qed.

Lemma trim_end_blank (r : string) :
  all_chars is_blank r = true -> trim_end r = "".
Proof.
  induction r as [| c r' IH]; intros Hr; [reflexivity |].
  unfold all_chars in Hr. cbn [list_ascii_of_string forallb] in Hr.
  apply andb_true_iff in Hr as [Hc Hr'].
  cbn [trim_end]. rewrite (IH Hr'), (proj1 (is_blank_spec c Hc)). reflexivity.
Qed.

Lemma trim_end_padded (s r : string) :
  (forall c, In c (list_ascii_of_string s) -> is_white_space c = false) ->
  all_chars is_blank r = true ->
  trim_end (s +:+ r) = s.
Proof.
  intros Hs Hr. induction s as [| c s' IH]; [exact (trim_end_blank r Hr) |].
  change (String c s' +:+ r) with (String c (s' +:+ r)).
  cbn [trim_end].
  rewrite IH by (intros c' Hc'; apply Hs; right; exact Hc').
  destruct s' as [| c' s'']; [| reflexivity].
  rewrite (Hs c) by (left; reflexivity). reflexivity.
Qed.

(** Padding of spaces and tabs around a text without white space is what
    [trim] removes. *)
Lemma trim_padded (l s r : string) :
  all_chars is_blank l = true ->
  (forall c, In c (list_ascii_of_string s) -> is_white_space c = false) ->
  all_chars is_blank r = true ->
  trim (l +:+ s +:+ r) = s.
Proof.
  intros Hl Hs Hr. unfold trim. rewrite (trim_start_blank l _ Hl).
  destruct s as [| c s'].
  - change ("" +:+ r) with r.
    assert (Hr' : trim_start r = "").
    { clear Hs. induction r as [| c r' IH]; [reflexivity |].
      unfold all_chars in Hr. cbn [list_ascii_of_string forallb] in Hr.
      apply andb_true_iff in Hr as [Hc Hr'].
      cbn [trim_start]. rewrite (proj1 (is_blank_spec c Hc)). exact (IH Hr'). }
    rewrite Hr'. reflexivity.
  - change (String c s' +:+ r) with (String c (s' +:+ r)).
    cbn [trim_start]. rewrite (Hs c) by (left; reflexivity).
    change (String c (s' +:+ r)) with (String c s' +:+ r).
    apply trim_end_padded; assumption.
Qed.

Lemma split_on_sections (first : string) (params : list TypeParam) :
  (forall c, In c (list_ascii_of_string first) -> c <> ";"%char) ->
  (forall p, In p params ->
     forall c, In c (list_ascii_of_string (param_text p)) -> c <> ";"%char) ->
  split_on ";" (first +:+ params_text params) = first :: map param_text params.
Proof.
  revert first. induction params as [| p rest IH]; intros first Hf Hp.
  - cbn [params_text map]. rewrite append_empty_r. apply split_on_no_sep. exact Hf.
  - cbn [params_text map].
    change (";" +:+ param_text p +:+ params_text rest)
      with (String ";" (param_text p +:+ params_text rest)).
    rewrite (split_on_app _ _ _ Hf). f_equal. apply IH.
    + apply Hp. left. reflexivity.
    + intros q Hq. apply Hp. right. exact Hq.
Qed.

Lemma well_formed_param_spec (p : TypeParam) :
  well_formed_param p = true ->
  trim (param_text p) = tp_key p +:+ "=" +:+ tp_value p
  /\ split_on "=" (tp_key p +:+ "=" +:+ tp_value p) = [tp_key p; tp_value p]
  /\ (forall c, In c (list_ascii_of_string (param_text p)) -> c <> ";"%char).
Proof.
  unfold well_formed_param. intros H.
  repeat (apply andb_true_iff in H; destruct H as [H ?]).
  rename H into Hl, H2 into Hk, H1 into Hv, H0 into Hr.
  assert (Hkc := fun c Hc => is_token_char_spec c (all_chars_In _ _ c Hk Hc)).
  assert (Hvc := fun c Hc => is_token_char_spec c (all_chars_In _ _ c Hv Hc)).
  assert (Hlc := fun c Hc => is_blank_spec c (all_chars_In _ _ c Hl Hc)).
  assert (Hrc := fun c Hc => is_blank_spec c (all_chars_In _ _ c Hr Hc)).
  split; [| split].
  - unfold param_text.
    replace (tp_key p +:+ "=" +:+ tp_value p +:+ tp_right p)
      with ((tp_key p +:+ "=" +:+ tp_value p) +:+ tp_right p)
      by (rewrite !append_assoc; reflexivity).
    apply trim_padded; [exact Hl | | exact Hr].
    intros c Hc. rewrite !chars_of_append in Hc.
    apply in_app_or in Hc as [Hc | Hc]; [exact (proj1 (Hkc c Hc)) |].
    apply in_app_or in Hc as [Hc | Hc]; [| exact (proj1 (Hvc c Hc))].
    destruct Hc as [<- | []]. reflexivity.
  - change (tp_key p +:+ "=" +:+ tp_value p)
      with (tp_key p +:+ String "=" (tp_value p)).
    rewrite split_on_app by (intros c Hc; exact (proj2 (proj2 (Hkc c Hc)))).
    rewrite split_on_no_sep by (intros c Hc; exact (proj2 (proj2 (Hvc c Hc)))).
    reflexivity.
  - intros c Hc. unfold param_text in Hc. rewrite !chars_of_append in Hc.
    apply in_app_or in Hc as [Hc | Hc]; [exact (proj1 (proj2 (Hlc c Hc))) |].
    apply in_app_or in Hc as [Hc | Hc]; [exact (proj1 (proj2 (Hkc c Hc))) |].
    apply in_app_or in Hc as [Hc | Hc]; [destruct Hc as [<- | []]; discriminate |].
    apply in_app_or in Hc as [Hc | Hc]; [exact (proj1 (proj2 (Hvc c Hc))) |].
    exact (proj1 (proj2 (Hrc c Hc))).
Qed.

Lemma typeParams_of_params (params : list TypeParam)
    (init : gmap string (option string)) :
  forallb well_formed_param params = true ->
  foldl typeParams_step init (map trim (map param_text params))
    = foldl (fun m p => <[tp_key p := Some (tp_value p)]> m) init params.
Proof.
  revert init. induction params as [| p rest IH]; intros init Hwf; [reflexivity |].
  cbn [forallb] in Hwf. apply andb_true_iff in Hwf as [Hp Hrest].
  destruct (well_formed_param_spec p Hp) as (Htrim & Hsplit & _).
  cbn [map foldl]. rewrite IH by exact Hrest. f_equal.
  unfold typeParams_step. rewrite Htrim, Hsplit. reflexivity.
Qed.

Lemma no_charset_keeps (params : list TypeParam)
    (init : gmap string (option string)) :
  existsb (fun q => bool_decide (tp_key q = "charset")) params = false ->
  foldl (fun m p => <[tp_key p := Some (tp_value p)]> m) init params !! "charset"
    = init !! "charset".
Proof.
  revert init. induction params as [| q rest IH]; intros init E; [reflexivity |].
  cbn [existsb] in E. apply orb_false_iff in E as [Eq Erest].
  cbn [foldl]. rewrite (IH _ Erest).
  apply lookup_insert_ne. exact (bool_decide_eq_false_1 _ Eq).
Qed.

Lemma later_charset_decides (params : list TypeParam)
    (init init' : gmap string (option string)) :
  existsb (fun q => bool_decide (tp_key q = "charset")) params = true ->
  foldl (fun m p => <[tp_key p := Some (tp_value p)]> m) init params !! "charset"
    = foldl (fun m p => <[tp_key p := Some (tp_value p)]> m) init' params !! "charset".
Proof.
  revert init init'. induction params as [| p rest IH]; intros init init' H;
    [discriminate |].
  cbn [existsb] in H. cbn [foldl].
  destruct (existsb (fun q => bool_decide (tp_key q = "charset")) rest) eqn:E.
  - apply IH. reflexivity.
  - rewrite orb_false_r in H. apply bool_decide_eq_true_1 in H.
    rewrite !(no_charset_keeps rest _ E), H, !lookup_insert_eq. reflexivity.
Qed.

Lemma charset_of_params (params : list TypeParam) :
  match foldl (fun m p => <[tp_key p := Some (tp_value p)]> m)
          (∅ : gmap string (option string)) params !! "charset" with
  | Some (Some v) => if bool_decide (v = "") then "utf-8" else v
  | _ => "utf-8"
  end = named_charset params.
Proof.
  induction params as [| p rest IH]; [reflexivity |].
  cbn [foldl named_charset].
  destruct (existsb (fun q => bool_decide (tp_key q = "charset")) rest) eqn:E.
  - rewrite (later_charset_decides rest _ ∅ E). exact IH.
  - rewrite (no_charset_keeps rest _ E).
    destruct (bool_decide (tp_key p = "charset")) eqn:Ek.
    + apply bool_decide_eq_true_1 in Ek. rewrite Ek, lookup_insert_eq.
      destruct (bool_decide (tp_value p = "")); reflexivity.
    + rewrite lookup_insert_ne by exact (bool_decide_eq_false_1 _ Ek).
      rewrite lookup_empty. reflexivity.
Qed.

(** From a header written out and well formed, the dispatch reads the
    media type as its base token and the named charset as decoder label. *)
Lemma header_is_read (req : ServerRequest) (left t right : string)
    (params : list TypeParam) :
  well_formed_header left t right params = true ->
  req_headers req !! "content-type" = Some (header_text left t right params) ->
  contentType req = t /\ charset req = named_charset params.
Proof.
  unfold well_formed_header. intros Hwf Hhdr.
  repeat (apply andb_true_iff in Hwf; destruct Hwf as [Hwf ?]).
  rename Hwf into Hl, H2 into Ht, H1 into Hne, H0 into Hr, H into Hps.
  apply negb_true_iff, String.eqb_neq in Hne.
  assert (Htc := fun c Hc => is_token_char_spec c (all_chars_In _ _ c Ht Hc)).
  assert (Hlc := fun c Hc => is_blank_spec c (all_chars_In _ _ c Hl Hc)).
  assert (Hrc := fun c Hc => is_blank_spec c (all_chars_In _ _ c Hr Hc)).
  assert (Hraw : rawContentType req = header_text left t right params).
  { unfold rawContentType. rewrite Hhdr.
    rewrite bool_decide_eq_false_2; [reflexivity |].
    unfold header_text. intros Hempty.
    destruct left as [| c l']; [| discriminate Hempty].
    destruct t as [| c t']; [congruence | discriminate Hempty]. }
  assert (Hparts : contentTypeParts req
                   = t :: map trim (map param_text params)).
  { unfold contentTypeParts. rewrite Hraw. unfold header_text.
    replace (left +:+ t +:+ right +:+ params_text params)
      with ((left +:+ t +:+ right) +:+ params_text params)
      by (rewrite !append_assoc; reflexivity).
    rewrite split_on_sections.
    - cbn [map]. f_equal.
      apply trim_padded; [exact Hl | | exact Hr].
      intros c Hc. exact (proj1 (Htc c Hc)).
    - intros c Hc. rewrite !chars_of_append in Hc.
      apply in_app_or in Hc as [Hc | Hc]; [exact (proj1 (proj2 (Hlc c Hc))) |].
      apply in_app_or in Hc as [Hc | Hc]; [exact (proj1 (proj2 (Htc c Hc))) |].
      exact (proj1 (proj2 (Hrc c Hc))).
    - intros p Hp. apply well_formed_param_spec.
      rewrite forallb_forall in Hps. exact (Hps p Hp). }
  unfold contentType, charset, typeParams, typeParamsArray. rewrite Hparts.
  split; [reflexivity |].
  cbn [tl]. rewrite (typeParams_of_params params ∅ Hps).
  apply charset_of_params.
Qed.

(** * Dispatch, stated on the request as received *)

Lemma assign_plain (source : Params) :
  source !! "__proto__" = None -> Object_assign ∅ source = source.
Proof.
  intros H. unfold Object_assign. rewrite delete_id by exact H.
  apply (right_id_L ∅ (∪)).
Qed.

(** The members of a parsed object, none of them called [__proto__], are
    the own properties of the params, and the only ones. *)
Lemma object_members_are_params (members : list (string * json)) :
  NoDup (map fst members) ->
  ~ In "__proto__" (map fst members) ->
  (forall k v, In (k, v) members ->
     Object_assign ∅ (own_properties (JObject members)) !! k = Some v)
  /\ (forall k, ~ In k (map fst members) ->
        Object_assign ∅ (own_properties (JObject members)) !! k = None).
Proof.
  intros Hnd Hproto.
  assert (Hplain : own_properties (JObject members) !! "__proto__" = None).
  { cbn [own_properties]. rewrite members_untouched by exact Hproto.
    apply lookup_empty. }
  rewrite (assign_plain _ Hplain). cbn [own_properties]. split.
  - intros k v Hin. apply members_stored; assumption.
  - intros k Hk. rewrite members_untouched by exact Hk. apply lookup_empty.
Qed.

Section Received.
Context {C : Collaborators}.

(** A matched request is handed to its handler with the params of section
    4.2, or to no handler at all when computing them aborts. *)
Lemma matched_dispatch (a : App) (req : ServerRequest) (path : string)
    (search : option string) (h : Handler) :
  split_url (req_url req) = (path, search) ->
  lookup_handler a (req_method req) path = Some h ->
  match params_per_spec (req_method req) search req with
  | Normal ps => dispatched_to a req path search (body_reads (req_method req)) h ps
  | Abrupt _ => invocations (trace (serve_request a req)) = []
  end.
Proof.
  intros Hsplit Hlk.
  assert (Hs : search <> Some "").
  { intros ->. exact (split_url_search_nonempty _ _ _ Hsplit eq_refl). }
  pose proof (respond_matched a path search _ req h Hlk (fun _ => Hs)) as Hr.
  unfold dispatched_to.
  rewrite (serve_request_invocations a req path search Hsplit).
  destruct (params_per_spec (req_method req) search req) as [ps | e].
  - cbv zeta in Hr. cbv zeta. rewrite Hr. split; [reflexivity |].
    cbn [trace fst]. rewrite invocations_app. unfold body_reads.
    destruct (bool_decide (req_method req = "GET")); reflexivity.
  - rewrite Hr. cbn [trace fst]. unfold body_reads.
    destruct (TextDecoder (charset req));
      [destruct (bool_decide (req_method req = "GET")) |]; reflexivity.
Qed.



End Received.

(** ** The amended statements on concrete requests *)


(** C5 as worded fails: ["public/hello.html"] resolves as a regular file,
    yet when it cannot be opened the fallback throws instead of returning
    a response of status 200. *)
Lemma unopenable_file_is_not_served :
  ~ resolved_files_are_served (C := Demo.collaborators_locked).
Proof.
  intros H.
  destruct (H Demo.the_app "/hello.html" "public/hello.html"
              {| isFile := true; isDirectory := false; len := 12%N |})
    as (t & headers & body & Hr); [vm_compute; reflexivity |].
  vm_compute in Hr. discriminate Hr.
Qed.



